(** * audiolab-api: the script-creation endpoint

    A shallow embedding of [ScriptCreate.handle] (scriptCreate.ts): text is
    extracted from a PDF, a narrator introduction and up to ten persona
    turns are requested from a language model, the resulting SSML script is
    uploaded to an R2 bucket, and a metadata row is inserted into the D1
    table [scripts], with a best-effort delete of the uploaded object when
    the insert fails.

    Conventions of the model.
    - A JavaScript string is a [string]: a sequence of 8-bit code units
      (the Latin-1 range of JavaScript's 16-bit code units).
    - The platform services ([fetch]/unpdf, Workers AI, R2, D1, the clock)
      are an environment [Env] that fixes, for one request, the outcome of
      every call the handler can make.  Theorems quantify over all
      environments.
    - The handler is a function in a state-and-exception monad over a
      [World]: the bucket, the table, the console and the list of calls
      issued to the platform. *)

From Stdlib Require Import Ascii String DecimalString.
From stdpp Require Import base strings gmap list.

(** ** JavaScript strings *)

Definition chr (n : nat) : string := String (ascii_of_nat n) EmptyString.

(** The double quote and the line feed, which string literals here avoid. *)
Definition dquote : string := chr 34.
Definition LF : string := chr 10.

(** [\s] of a regular expression, and the characters [trim] strips:
    TAB, LF, VT, FF, CR, SPACE and NBSP are the ones below 256. *)
Definition isWhiteSpace (c : ascii) : bool :=
  let n := nat_of_ascii c in
  (n =? 9)%nat || (n =? 10)%nat || (n =? 11)%nat || (n =? 12)%nat
  || (n =? 13)%nat || (n =? 32)%nat || (n =? 160)%nat.

Definition isEmpty (s : string) : bool :=
  match s with EmptyString => true | String _ _ => false end.

Fixpoint trimStart (s : string) : string :=
  match s with
  | EmptyString => EmptyString
  | String c s' => if isWhiteSpace c then trimStart s' else s
  end.

Fixpoint trimEnd (s : string) : string :=
  match s with
  | EmptyString => EmptyString
  | String c s' =>
      let t := trimEnd s' in
      if isWhiteSpace c && isEmpty t then EmptyString else String c t
  end.

(** [s.trim()] *)
Definition trim (s : string) : string := trimEnd (trimStart s).

(** [s.replace(/\s+/g, "-")]: every maximal run of white space becomes one
    hyphen.  [in_run] tells that the previous character was white space. *)
Fixpoint replace_runs (in_run : bool) (s : string) : string :=
  match s with
  | EmptyString => EmptyString
  | String c s' =>
      if isWhiteSpace c
      then (if in_run then replace_runs true s'
            else String "-" (replace_runs true s'))
      else String c (replace_runs false s')
  end.

Definition replace_whitespace (s : string) : string := replace_runs false s.

(** [s.substring(0, n)] *)
Definition substring0 (n : nat) (s : string) : string := substring 0 n s.

(** [l.join(sep)] *)
Fixpoint join (sep : string) (l : list string) : string :=
  match l with
  | [] => EmptyString
  | [x] => x
  | x :: l' => x +:+ sep +:+ join sep l'
  end.

(** A non-negative integer in a template literal: its decimal digits. *)
Definition Number_toString (n : N) : string :=
  NilZero.string_of_uint (N.to_uint n).

(** ** [JSON.stringify] of an array of strings *)

Definition hex_digit (n : nat) : string :=
  chr (if (n <? 10)%nat then 48 + n else 87 + n).

Definition quote_char (c : ascii) : string :=
  let n := nat_of_ascii c in
  if (n =? 8)%nat then "\b"
  else if (n =? 9)%nat then "\t"
  else if (n =? 10)%nat then "\n"
  else if (n =? 12)%nat then "\f"
  else if (n =? 13)%nat then "\r"
  else if (n =? 34)%nat then "\" +:+ dquote
  else if (n =? 92)%nat then "\\"
  else if (n <? 32)%nat then "\u00" +:+ hex_digit (n / 16) +:+ hex_digit (n mod 16)
  else String c EmptyString.

Fixpoint quote_body (s : string) : string :=
  match s with
  | EmptyString => EmptyString
  | String c s' => quote_char c +:+ quote_body s'
  end.

Definition quoteJSONString (s : string) : string :=
  dquote +:+ quote_body s +:+ dquote.

Definition JSON_stringify (l : list string) : string :=
  "[" +:+ join "," (quoteJSONString <$> l) +:+ "]".

(** ** Data *)

(** The validated request body.  The schema of the route requires [url] to
    be a URL and [personas] to hold at least one name. *)
Module Body.
Record t := mk { name : string; url : string; personas : list string }.
End Body.

(** A row of the table [scripts], as [RETURNING id, name, r2_file_link,
    created_at, personas] gives it. *)
Module Row.
Record t := mk {
  id : Z;
  name : string;
  r2_file_link : string;
  created_at : string;
  personas : string
}.
End Row.

(** chanfana's [ApiException(message, status)]. *)
Record ApiException := mkApiException { message : string; status : N }.

(** chanfana's constructor as the source calls it,
    [new ApiException(message, 400)]: the constructor takes the message
    only, and [status] is a field of the class, 500; what else is passed is
    not read. *)
Definition new_ApiException (message : string) (unread : N) : ApiException :=
  mkApiException message 500.

(** What a JavaScript [throw] carries here: an error of the platform or of
    a library, known by its message, or an [ApiException], or the
    [ZodError] of a request the schema rejects, known by its issues. *)
Inductive Exn :=
| JsError (msg : string)
| ApiError (e : ApiException)
| ZodError (issues : string).

Definition error_message (e : Exn) : string :=
  match e with
  | JsError msg => msg
  | ApiError a => message a
  | ZodError issues => issues
  end.

(** The value [handle] returns, with the status set by [c.status(201)]. *)
Record Created := mkCreated {
  http_status : N;
  success : bool;
  result : Row.t
}.

(** ** The platform *)

(** The object [AI.run] resolves to; only its field [response] is read. *)
Record AiResponse := mkAiResponse { response : option string }.

Inductive AiOutcome :=
| AiThrows (err : string)
| AiReturns (r : AiResponse).

(** [fetch(url)]: it rejects, or resolves to a response of which [ok] and
    [statusText] are read. *)
Inductive FetchOutcome :=
| FetchThrows (err : string)
| FetchResponds (ok : bool) (statusText : string).

(** unpdf on the fetched body ([arrayBuffer], [getDocumentProxy],
    [extractText] with merged pages). *)
Inductive UnpdfOutcome :=
| UnpdfThrows (err : string)
| UnpdfText (text : string).

Inductive InsertOutcome :=
| InsertThrows (err : string)
| Inserted (id : Z) (created_at : string).

(** The outcomes of one request.  [AI_outcome k] answers the [k]-th call of
    [AI.run] in the request (0 is the narrator, [S i] is persona turn [i]);
    [None] for a bucket operation means that it succeeds. *)
Record Env := mkEnv {
  fetch_outcome : string -> FetchOutcome;
  unpdf_outcome : string -> UnpdfOutcome;
  AI_outcome : nat -> AiOutcome;
  now : N;
  put_outcome : option string;
  insert_outcome : InsertOutcome;
  delete_outcome : option string
}.

(** Calls issued to the platform, in order. *)
Inductive Call :=
| CallFetch (url : string)
| CallAI (model prompt : string) (max_tokens : N)
| CallPut (key body : string)
| CallInsert (name r2_file_link personas : string)
| CallDelete (key : string).

(** Console output.  An error object is shown by its message; [LJson r] is
    [JSON.stringify(r, null, 2)]. *)
Inductive LogArg :=
| LStr (s : string)
| LErr (e : Exn)
| LJson (r : AiResponse).

Inductive ConsoleEntry :=
| console_log_entry (args : list LogArg)
| console_warn_entry (args : list LogArg)
| console_error_entry (args : list LogArg).

Record World := mkWorld {
  bucket : gmap string string;
  scripts : list Row.t;
  console : list ConsoleEntry;
  calls : list Call
}.

Definition set_bucket (f : gmap string string → gmap string string) (w : World) : World :=
  mkWorld (f (bucket w)) (scripts w) (console w) (calls w).
Definition set_scripts (f : list Row.t → list Row.t) (w : World) : World :=
  mkWorld (bucket w) (f (scripts w)) (console w) (calls w).
Definition add_console (e : ConsoleEntry) (w : World) : World :=
  mkWorld (bucket w) (scripts w) (console w ++ [e])%list (calls w).
Definition add_call (c : Call) (w : World) : World :=
  mkWorld (bucket w) (scripts w) (console w) (calls w ++ [c])%list.

(** ** The monad of the handler: state and exceptions *)

Inductive Res (A : Type) :=
| Returns (a : A)
| Throws (e : Exn).
Arguments Returns {A} a.
Arguments Throws {A} e.

Definition M (A : Type) : Type := World → Res A * World.

#[global] Instance M_ret : MRet M := λ A a w, (Returns a, w).

#[global] Instance M_bind : MBind M := λ A B k m w,
  match m w with
  | (Returns a, w') => k a w'
  | (Throws e, w') => (Throws e, w')
  end.

Definition throw {A} (e : Exn) : M A := λ w, (Throws e, w).

(** [try { m } catch (error) { h error }] *)
Definition try_catch {A} (m : M A) (h : Exn → M A) : M A := λ w,
  match m w with
  | (Returns a, w') => (Returns a, w')
  | (Throws e, w') => h e w'
  end.

Definition console_log (args : list LogArg) : M unit :=
  λ w, (Returns (), add_console (console_log_entry args) w).
Definition console_warn (args : list LogArg) : M unit :=
  λ w, (Returns (), add_console (console_warn_entry args) w).
Definition console_error (args : list LogArg) : M unit :=
  λ w, (Returns (), add_console (console_error_entry args) w).

(** ** The calls to the platform *)

Section Request.
Context (env : Env).

Definition fetch (url : string) : M (bool * string) := λ w,
  let w := add_call (CallFetch url) w in
  match fetch_outcome env url with
  | FetchThrows err => (Throws (JsError err), w)
  | FetchResponds ok statusText => (Returns (ok, statusText), w)
  end.

Definition unpdf (url : string) : M string := λ w,
  match unpdf_outcome env url with
  | UnpdfThrows err => (Throws (JsError err), w)
  | UnpdfText text => (Returns text, w)
  end.

(** [c.env.AI.run(model, { prompt, stream: false, max_tokens })], the
    [k]-th such call of the request. *)
Definition AI_run (k : nat) (model prompt : string) (max_tokens : N)
  : M AiResponse := λ w,
  let w := add_call (CallAI model prompt max_tokens) w in
  match AI_outcome env k with
  | AiThrows err => (Throws (JsError err), w)
  | AiReturns r => (Returns r, w)
  end.

(** [c.env.R2_BUCKET.put(key, body)]: R2 stores the object under the key,
    replacing an object already there; a put that rejects stores
    nothing. *)
Definition R2_BUCKET_put (key body : string) : M unit := λ w,
  let w := add_call (CallPut key body) w in
  match put_outcome env with
  | Some err => (Throws (JsError err), w)
  | None => (Returns (), set_bucket (insert key body) w)
  end.

(** [c.env.R2_BUCKET.delete(key)]; a delete that rejects removes
    nothing. *)
Definition R2_BUCKET_delete (key : string) : M unit := λ w,
  let w := add_call (CallDelete key) w in
  match delete_outcome env with
  | Some err => (Throws (JsError err), w)
  | None => (Returns (), set_bucket (delete key) w)
  end.

(** [c.env.DB.prepare("INSERT INTO scripts (name, r2_file_link, personas)
    VALUES (?, ?, ?) RETURNING ...").bind(name, r2_file_link,
    personasJson).first()]: the table gains the row and the row comes
    back with the id and the creation time the database assigned; an
    insert that rejects adds nothing. *)
Definition DB_insert_script (name r2_file_link personasJson : string)
  : M Row.t := λ w,
  let w := add_call (CallInsert name r2_file_link personasJson) w in
  match insert_outcome env with
  | InsertThrows err => (Throws (JsError err), w)
  | Inserted id created_at =>
      let info := Row.mk id name r2_file_link created_at personasJson in
      (Returns info, set_scripts (λ rows, (rows ++ [info])%list) w)
  end.

(** ** scriptCreate.ts *)

Definition extractTextFromPdf (url : string) : M string :=
  try_catch
    (response ← fetch url;
     (if negb (fst response)
      then throw (JsError ("Failed to fetch PDF: " +:+ snd response))
      else mret ());;
     text ← unpdf url;
     mret (trim text))
    (λ error,
      console_error [LStr "Error extracting text from PDF:"; LErr error];;
      throw (ApiError (new_ApiException
        ("Failed to process PDF from url: " +:+ url +:+ ". "
           +:+ error_message error) 400))).

Definition MAX_TURNS : nat := 10.
Definition TOKENS_PER_TURN : N := 512.
Definition MODEL : string := "@cf/mistral/mistral-7b-instruct-v0.1".

Definition speak_open : string :=
  "<speak xmlns=" +:+ dquote +:+ "http://www.w3.org/2001/10/synthesis" +:+ dquote
  +:+ " xmlns:xsi=" +:+ dquote +:+ "http://www.w3.org/2001/XMLSchema-instance" +:+ dquote
  +:+ " xsi:schemaLocation=" +:+ dquote
  +:+ "http://www.w3.org/WAI/TR/2018/wcag21/syn-speech-api#command" +:+ dquote
  +:+ ">".

Definition speak_close : string := "</speak>".

(** [response.response || ''] *)
Definition response_or_empty (r : AiResponse) : string :=
  default EmptyString (response r).

Definition personaPrompt (articleText : string)
    (conversationHistory : list string) (persona : string)
    (currentTurn : nat) : string :=
  LF +:+ "        You are " +:+ persona
  +:+ ". Based on the article text and the conversation so far, generate your next line of dialogue in SSML format."
  +:+ LF +:+ "        Keep your response concise, within "
  +:+ Number_toString TOKENS_PER_TURN
  +:+ " tokens, and relevant to the discussion."
  +:+ LF +:+ "        Ensure your response is enclosed in a <voice name="
  +:+ dquote +:+ persona +:+ dquote
  +:+ "> tag and includes <prosody> tags for expressive speech."
  +:+ LF +:+ "        Article Text: " +:+ substring0 5000 articleText
  +:+ LF +:+ "        Conversation History:" +:+ LF
  +:+ join LF conversationHistory
  +:+ LF +:+ "        Your Turn (" +:+ Number_toString (N.of_nat currentTurn)
  +:+ "/" +:+ Number_toString (N.of_nat MAX_TURNS) +:+ "):"
  +:+ LF +:+ "      ".

(** The helper closes over [articleText] and the mutable
    [conversationHistory]; here both are arguments.  A rejected call is
    logged and yields the empty string. *)
Definition generatePersonaResponse (articleText : string)
    (conversationHistory : list string) (persona : string)
    (currentTurn : nat) : M string :=
  let prompt := personaPrompt articleText conversationHistory persona currentTurn in
  console_log [LStr ("AI Prompt for " +:+ persona +:+ ":" +:+ LF); LStr prompt];;
  try_catch
    (response ← AI_run currentTurn MODEL prompt TOKENS_PER_TURN;
     console_log [LStr ("Full AI response for " +:+ persona +:+ ":"); LJson response];;
     mret (response_or_empty response))
    (λ error,
      console_error [LStr ("Error calling Workers AI for " +:+ persona +:+ ":"); LErr error];;
      mret EmptyString).

Definition narratorPrompt (articleText : string) : string :=
  LF +:+ "      As a narrator, provide a brief introduction to a podcast episode based on the following article."
  +:+ LF +:+ "      The introduction should be in SSML format, enclosed in a <voice name="
  +:+ dquote +:+ "Narrator" +:+ dquote
  +:+ "> tag, and include <prosody> tags."
  +:+ LF +:+ "      Article Text: " +:+ substring0 2000 articleText
  +:+ LF +:+ "    ".

(** The two mutable locals of [handle]: [fullScriptContent] and
    [conversationHistory]. *)
Definition Script : Type := string * list string.

Definition say (line : string) (st : Script) : Script :=
  (fst st +:+ line, (snd st ++ [line])%list).

(** 1. Narrator Introduction.  When the call rejects the script goes on
    without an introduction. *)
Definition narratorIntroduction (articleText : string) (st : Script) : M Script :=
  let prompt := narratorPrompt articleText in
  console_log [LStr ("AI Prompt for Narrator:" +:+ LF); LStr prompt];;
  try_catch
    (narratorResponse ← AI_run 0 MODEL prompt 256;
     console_log [LStr "Full AI response for Narrator:"; LJson narratorResponse];;
     let intro := response_or_empty narratorResponse in
     mret (say intro st))
    (λ error,
      console_error [LStr "Error generating narrator intro:"; LErr error];;
      mret st).

(** [personas[i % personas.length]], read inside template literals only,
    where [undefined] prints as its name. *)
Definition currentPersona (personas : list string) (i : nat) : string :=
  default "undefined" (personas !! (i mod length personas)).

(** 2. Iterative Dialogue Generation:
    [for (let i = 0; i < MAX_TURNS; i++) { ... break ... }], with [turns]
    the number of iterations left, [MAX_TURNS - i]. *)
Fixpoint dialogueFrom (articleText : string) (personas : list string)
    (turns i : nat) (st : Script) : M Script :=
  match turns with
  | O => mret st
  | S turns' =>
      let persona := currentPersona personas i in
      personaDialogue ←
        generatePersonaResponse articleText (snd st) persona (i + 1);
      if isEmpty personaDialogue
      then
        console_warn [LStr ("Persona " +:+ persona
          +:+ " failed to generate a response. Ending conversation.")];;
        mret st
      else dialogueFrom articleText personas turns' (S i) (say personaDialogue st)
  end.

Definition dialogueGeneration (articleText : string) (personas : list string)
    (st : Script) : M Script :=
  dialogueFrom articleText personas MAX_TURNS 0 st.

(** Lines 80 to 146: the whole script, wrapper included. *)
Definition generateScript (articleText : string) (personas : list string)
  : M string :=
  st ← narratorIntroduction articleText (speak_open, []);
  st ← dialogueGeneration articleText personas st;
  mret (fst st +:+ speak_close).

Definition r2_file_link_of (timestamp : N) (name : string) : string :=
  "generated/" +:+ Number_toString timestamp +:+ "-"
  +:+ replace_whitespace name +:+ ".ssml".

Definition R2_FAILED : ApiException :=
  mkApiException "Failed to store generated script in R2." 500.
Definition D1_FAILED : ApiException :=
  mkApiException "Failed to save script metadata to the database." 500.

(** 3. Upload the script to R2, and 4. Save metadata to D1 (lines 150 to
    180): the dual write with its compensating delete. *)
Definition commit (fullScriptContent r2_file_link name : string)
    (personas : list string) : M Created :=
  try_catch (R2_BUCKET_put r2_file_link fullScriptContent)
    (λ error,
      console_error [LStr "Error uploading to R2:"; LErr error];;
      throw (ApiError R2_FAILED));;
  let personasJson := JSON_stringify personas in
  try_catch
    (info ← DB_insert_script name r2_file_link personasJson;
     mret (mkCreated 201 true info))
    (λ error,
      console_error [LStr "Error inserting into D1:"; LErr error];;
      try_catch (R2_BUCKET_delete r2_file_link)
        (λ deleteError,
          console_error [LStr "Error cleaning up orphaned R2 file:"; LErr deleteError]);;
      throw (ApiError D1_FAILED)).

(** Lines 68 to 181 of [ScriptCreate.handle], on the validated
    [data.body]; line 67 is [getValidatedData] below, and the whole method
    is [ScriptCreate_handle]. *)
Definition handle (body : Body.t) : M Created :=
  let name := Body.name body in
  let url := Body.url body in
  let personas := Body.personas body in
  articleText ← extractTextFromPdf url;
  if isEmpty articleText || (String.length (trim articleText) =? 0)%nat
  then throw (ApiError (new_ApiException
         "Could not extract text from the provided PDF." 400))
  else
    fullScriptContent ← generateScript articleText personas;
    let r2_file_link := r2_file_link_of (now env) name in
    commit fullScriptContent r2_file_link name personas.

End Request.

(** What chanfana's validation makes of the request: the issues of a body
    the schema rejects, or the body, which then has a URL and at least one
    persona. *)
Inductive Validation :=
| Rejected (issues : string)
| Validated (body : Body.t).

(** [await this.getValidatedData<typeof this.schema>()] of line 67, a
    method of chanfana: it throws the [ZodError] of a rejected request. *)
Definition getValidatedData (validation : Validation) : M Body.t :=
  match validation with
  | Rejected issues => throw (ZodError issues)
  | Validated body => mret body
  end.

(** The whole of [ScriptCreate.handle]: line 67, then the rest on
    [data.body]. *)
Definition ScriptCreate_handle (env : Env) (validation : Validation)
  : M Created :=
  body ← getValidatedData validation;
  handle env body.

(** ** scriptList.ts *)

(** The value [ScriptList.handle] returns. *)
Module Listed.
Record t := mk { success : bool; result : list Row.t }.
End Listed.

(** [c.env.DB.prepare("SELECT id, name, r2_file_link, created_at, personas
    FROM scripts").all()]: the rows of the table, in the order of insertion
    (the order of a table scan), or a rejection when [select_outcome] is an
    error.  The query changes nothing. *)
Definition DB_select_scripts (select_outcome : option string)
  : M (list Row.t) := λ w,
  match select_outcome with
  | Some err => (Throws (JsError err), w)
  | None => (Returns (scripts w), w)
  end.

(** [ScriptList.handle]: no [try], so a rejected query is thrown on as it
    is. *)
Definition ScriptList_handle (select_outcome : option string) : M Listed.t :=
  results ← DB_select_scripts select_outcome;
  mret (Listed.mk true results).

(** ** index.ts *)

(** One entry of the [errors] array of a response. *)
Module ErrorItem.
Record t := mk { code : N; message : string }.
End ErrorItem.

(** [c.json({ success, errors }, status)] *)
Module ErrorResponse.
Record t := mk { status : N; success : bool; errors : list ErrorItem.t }.
End ErrorResponse.

(** What chanfana's [OpenAPIRoute.execute] answers without the help of
    [app.onError]. *)
Module Answer.
Inductive t (A : Type) :=
| Json (status : N) (body : A)
| ValidationFailed (status : N) (issues : string).
Arguments Json {A} status body.
Arguments ValidationFailed {A} status issues.
End Answer.

(** chanfana's [OpenAPIRoute.execute], the function a router registers for
    a route class, a method of the library: it runs [handle]; an object
    returned is answered with [Response.json], a new response of status
    200 that the status set on the context does not reach; a [ZodError] is
    answered by [handleValidationError] with status 400; any other error
    is thrown on. *)
Definition execute {A} (route : M A) : M (Answer.t A) := λ w,
  match route w with
  | (Returns resp, w') => (Returns (Answer.Json 200 resp), w')
  | (Throws (ZodError issues), w') =>
      (Returns (Answer.ValidationFailed 400 issues), w')
  | (Throws e, w') => (Throws e, w')
  end.

Section App.
(** chanfana's [err.buildResponse()], a method of the library. *)
Context (buildResponse : ApiException → list ErrorItem.t).

(** [app.onError((err, c) => ...)] *)
Definition onError (err : Exn) (w : World) : ErrorResponse.t * World :=
  match err with
  | ApiError e => (ErrorResponse.mk (status e) false (buildResponse e), w)
  | JsError _ | ZodError _ =>
      (ErrorResponse.mk 500 false
         [ErrorItem.mk 7000 "Internal Server Error"],
       add_console
         (console_error_entry [LStr "Global error handler caught:"; LErr err]) w)
  end.

(** Hono's part of a route: what the registered function returns is the
    response, and what it throws goes through [onError].  For the routes
    of router.ts the registered function is [execute] of the [handle] of
    the class. *)
Definition serve {A} (handler : M A) (w : World)
  : (ErrorResponse.t + A) * World :=
  match handler w with
  | (Returns a, w') => (inr a, w')
  | (Throws err, w') => let (r, w'') := onError err w' in (inl r, w'')
  end.

End App.

(** * Vocabulary of the properties *)

(** ** Worlds and calls *)

(** [w'] is [w] after the calls [cs], none of which changed the bucket or
    the table. *)
Definition after_calls (w w' : World) (cs : list Call) : Prop :=
  bucket w' = bucket w ∧ scripts w' = scripts w ∧ calls w' = calls w ++ cs.

(** Calls that reach the bucket or the database. *)
Definition is_store_call (c : Call) : bool :=
  match c with
  | CallPut _ _ | CallInsert _ _ _ | CallDelete _ => true
  | CallFetch _ | CallAI _ _ _ => false
  end.

(** What [throw new ApiException(msg, 400)] throws: an [ApiException] of
    status 500. *)
Definition REFUSED (msg : string) : Exn := ApiError (new_ApiException msg 400).

(** ** The model's answers and the script *)

(** All the lines of a script, one after the other. *)
Definition glue (lines : list string) : string :=
  foldr String.append EmptyString lines.

(** What a persona turn contributes: the text of the answer, and nothing
    when the call rejects or the answer has no text. *)
Definition reply (env : Env) (k : nat) : string :=
  match AI_outcome env k with
  | AiThrows _ => EmptyString
  | AiReturns r => response_or_empty r
  end.

(** What the narrator adds to the conversation history. *)
Definition narration (env : Env) : list string :=
  match AI_outcome env 0 with
  | AiThrows _ => []
  | AiReturns r => [response_or_empty r]
  end.

Definition narratorCall (articleText : string) : Call :=
  CallAI MODEL (narratorPrompt articleText) 256.

Definition turnCall (articleText : string) (personas : list string)
    (history : list string) (i : nat) : Call :=
  CallAI MODEL
    (personaPrompt articleText history (currentPersona personas i) (i + 1))
    TOKENS_PER_TURN.

(** The lines the loop appends, and the number of turns it asks for, when
    it starts at turn [i] with [turns] iterations left. *)
Fixpoint spoken (env : Env) (turns i : nat) : list string :=
  match turns with
  | O => []
  | S turns' =>
      if isEmpty (reply env (i + 1)) then []
      else reply env (i + 1) :: spoken env turns' (S i)
  end.

Fixpoint asked (env : Env) (turns i : nat) : nat :=
  match turns with
  | O => O
  | S turns' =>
      if isEmpty (reply env (i + 1)) then 1
      else S (asked env turns' (S i))
  end.

Definition turnCalls (env : Env) (articleText : string) (personas : list string)
    (history : list string) (turns i : nat) : list Call :=
  (λ j, turnCall articleText personas
          (history ++ take j (spoken env turns i)) (i + j))
    <$> seq 0 (asked env turns i).

(** The script [handle] uploads: the wrapper around the narrator's
    introduction and the lines of the personas. *)
Definition fullScript (env : Env) : string :=
  speak_open +:+ glue (narration env ++ spoken env MAX_TURNS 0) +:+ speak_close.

(** The content starts with the opening [<speak ...>] tag and ends with the
    closing one. *)
Definition enveloped (content : string) : Prop :=
  ∃ inner, content = speak_open +:+ inner +:+ speak_close.

(** ** The PDF, the key and the rows *)

(** The text [extractTextFromPdf] hands to [handle] and [handle] accepts:
    the fetch answers with [ok], unpdf yields text, and the trimmed text is
    not empty. *)
Definition extracts (env : Env) (url text : string) : Prop :=
  ∃ statusText raw,
    fetch_outcome env url = FetchResponds true statusText
    ∧ unpdf_outcome env url = UnpdfText raw
    ∧ text = trim raw
    ∧ isEmpty text || (String.length (trim text) =? 0) = false.

Definition noWhiteSpace (s : string) : Prop :=
  Forall (λ c, isWhiteSpace c = false) (list_ascii_of_string s).

(** The call that inserts the given values, and the row the database
    returns for it. *)
Definition insertCall (key name : string) (personas : list string) : Call :=
  CallInsert name key (JSON_stringify personas).

Definition newRow (key name : string) (personas : list string)
    (id : Z) (created_at : string) : Row.t :=
  Row.mk id name key created_at (JSON_stringify personas).

(** Either the call created no row and returned no record, or it created
    exactly one row, returned it, and the put of the row's key was accepted
    just before the insert, so that the object is in the bucket. *)
Definition record_after_blob (env : Env) (w : World)
    (o : Res Created * World) : Prop :=
  (scripts o.2 = scripts w ∧ ∀ created, o.1 ≠ Returns created)
  ∨ ∃ row content before,
      o.1 = Returns (mkCreated 201 true row)
      ∧ scripts o.2 = scripts w ++ [row]
      ∧ put_outcome env = None
      ∧ calls o.2 = calls w ++ before ++
          [CallPut (Row.r2_file_link row) content;
           CallInsert (Row.name row) (Row.r2_file_link row) (Row.personas row)]
      ∧ bucket o.2 !! Row.r2_file_link row = Some content.

(** The result is an error and the table is as before, or it is a record
    with every field set and the table has gained exactly that row. *)
Definition record_or_error (env : Env) (key name : string)
    (personas : list string) (w : World) (o : Res Created * World) : Prop :=
  match o.1 with
  | Throws e => (∃ a, e = ApiError a) ∧ scripts o.2 = scripts w
  | Returns created =>
      ∃ id created_at,
        insert_outcome env = Inserted id created_at
        ∧ created = mkCreated 201 true
                      (Row.mk id name key created_at (JSON_stringify personas))
        ∧ scripts o.2 = scripts w ++ [result created]
  end.

(** ** Four claims as the specification words them *)

(** The claim C4 as the specification words it: what the caller receives
    carries a secondary condition that tells a failed compensation from a
    successful one. *)
Definition compensation_failure_attached : Prop :=
  ∃ secondary : Res Created → bool,
    ∀ env content key name personas w err,
      put_outcome env = None →
      insert_outcome env = InsertThrows err →
      secondary (commit env content key name personas w).1
      = match delete_outcome env with Some _ => true | None => false end.

(** The claim C5 as the specification words it: after a first [commit]
    succeeded with a key, a second one with the same key fails at the put
    and leaves the bucket and the table as they were. *)
Definition key_reuse_rejected : Prop :=
  ∀ env1 env2 content1 content2 key name1 name2 personas1 personas2 w created w1,
    commit env1 content1 key name1 personas1 w = (Returns created, w1) →
    ∃ w2,
      commit env2 content2 key name2 personas2 w1
        = (Throws (ApiError R2_FAILED), w2)
      ∧ bucket w2 = bucket w1 ∧ scripts w2 = scripts w1.

(** The claim C7 as the specification words it: whenever the put fails,
    the upload failure is thrown, the put is the only call, the table is
    unchanged, and the bucket has nothing under the key afterwards. *)
Definition put_failure_leaves_no_entry : Prop :=
  ∀ env content key name personas w err,
    put_outcome env = Some err →
    ∃ w',
      commit env content key name personas w
        = (Throws (ApiError R2_FAILED), w')
      ∧ calls w' = calls w ++ [CallPut key content]
      ∧ scripts w' = scripts w
      ∧ bucket w' !! key = None.

(** The claim C6 as the specification words it. *)
Definition key_is_name_then_timestamp : Prop :=
  ∀ (name : string) (timestamp : N),
    r2_file_link_of timestamp name
    = replace_whitespace name +:+ "-" +:+ Number_toString timestamp.

(** ** Sample inputs *)

(** A request environment in which the PDF yields text and the model
    answers the narrator and the first two persona turns; the outcomes of
    the bucket and of the database are the arguments. *)
Definition sampleEnv (put : option string) (ins : InsertOutcome)
    (del : option string) : Env :=
  mkEnv (λ _, FetchResponds true "OK") (λ _, UnpdfText " An article. ")
    (λ k, if k <? 3 then AiReturns (mkAiResponse (Some "<voice/>"))
          else AiThrows "out of capacity")
    1700 put ins del.

Definition emptyWorld : World := mkWorld ∅ [] [] [].

Definition sampleBody : Body.t :=
  Body.mk "my file" "https://example.org/a.pdf" ["Ada"; "Bob"].

(** ** White space and digits *)

Fixpoint allWhiteSpace (s : string) : bool :=
  match s with
  | EmptyString => true
  | String c s' => isWhiteSpace c && allWhiteSpace s'
  end.

Definition startsWithSpace (s : string) : bool :=
  match s with
  | EmptyString => false
  | String c _ => isWhiteSpace c
  end.

Fixpoint endsWithSpace (s : string) : bool :=
  match s with
  | EmptyString => false
  | String c EmptyString => isWhiteSpace c
  | String _ s' => endsWithSpace s'
  end.

(** ** Calls of a request *)

Definition is_AI_call (c : Call) : bool :=
  match c with
  | CallAI _ _ _ => true
  | _ => false
  end.

(** ** Reading a quoted string back *)

Definition hex_value (h : ascii) : nat :=
  let n := nat_of_ascii h in
  if (n <? 58)%nat then n - 48 else n - 87.

Definition push (c : ascii) (o : option (string * string))
  : option (string * string) :=
  match o with
  | Some (s, rest) => Some (String c s, rest)
  | None => None
  end.

(** The inverse of [quote_body]: the characters up to the first double
    quote that is not escaped, decoded, and what follows that quote. *)
Fixpoint unquote_body (s : string) : option (string * string) :=
  match s with
  | EmptyString => None
  | String c s1 =>
      let n := nat_of_ascii c in
      if (n =? 34)%nat then Some (EmptyString, s1)
      else if (n =? 92)%nat then
        match s1 with
        | EmptyString => None
        | String x s2 =>
            let m := nat_of_ascii x in
            if (m =? 98)%nat then push (ascii_of_nat 8) (unquote_body s2)
            else if (m =? 116)%nat then push (ascii_of_nat 9) (unquote_body s2)
            else if (m =? 110)%nat then push (ascii_of_nat 10) (unquote_body s2)
            else if (m =? 102)%nat then push (ascii_of_nat 12) (unquote_body s2)
            else if (m =? 114)%nat then push (ascii_of_nat 13) (unquote_body s2)
            else if (m =? 34)%nat then push (ascii_of_nat 34) (unquote_body s2)
            else if (m =? 92)%nat then push (ascii_of_nat 92) (unquote_body s2)
            else if (m =? 117)%nat then
              match s2 with
              | String _ (String _ (String h1 (String h2 s3))) =>
                  push (ascii_of_nat (16 * hex_value h1 + hex_value h2))
                    (unquote_body s3)
              | _ => None
              end
            else None
        end
      else push c (unquote_body s1)
  end.

(** The array without its opening bracket. *)
Definition arrayTail (l : list string) : string :=
  join "," (quoteJSONString <$> l) +:+ "]".

Definition firstCode (s : string) : nat :=
  match s with
  | EmptyString => 0
  | String c _ => nat_of_ascii c
  end.

(** * Properties *)

Arguments personaPrompt : simpl never.
Arguments narratorPrompt : simpl never.
Arguments JSON_stringify : simpl never.
Arguments r2_file_link_of : simpl never.
Arguments speak_open : simpl never.
Arguments trim : simpl never.

Ltac run :=
  unfold mbind, M_bind, mret, M_ret, try_catch, throw,
    console_log, console_warn, console_error; simpl.

(** ** Strings *)

Example trim_sample : trim (LF +:+ "  An  article. ") = "An  article.".
Proof. reflexivity. Qed.

Example replace_whitespace_sample :
  replace_whitespace ("my   file" +:+ LF +:+ "v2 ") = "my-file-v2-".
Proof. reflexivity. Qed.

Example JSON_stringify_sample :
  JSON_stringify ["Ada"; "a\b" +:+ dquote +:+ LF]
  = "[" +:+ dquote +:+ "Ada" +:+ dquote +:+ "," +:+ dquote
      +:+ "a\\b\" +:+ dquote +:+ "\n" +:+ dquote +:+ "]".
Proof. reflexivity. Qed.

Lemma append_cons (x : ascii) (a b : string) :
  String x a +:+ b = String x (a +:+ b).
Proof. reflexivity. Qed.

Lemma append_assoc (a b c : string) : (a +:+ b) +:+ c = a +:+ b +:+ c.
Proof.
  induction a as [|x a IH]; [reflexivity |].
  by rewrite !append_cons, IH.
Qed.

Lemma append_nil_r (a : string) : a +:+ EmptyString = a.
Proof.
  induction a as [|x a IH]; [reflexivity |]. by rewrite append_cons, IH.
Qed.

Lemma glue_app (l1 l2 : list string) : glue (l1 ++ l2) = glue l1 +:+ glue l2.
Proof.
  induction l1 as [|x l1 IH]; simpl; [reflexivity |].
  by rewrite IH, append_assoc.
Qed.

Lemma say_all (lines : list string) (st : Script) :
  foldl (λ s d, say d s) st lines = (fst st +:+ glue lines, snd st ++ lines).
Proof.
  revert st; induction lines as [|d lines IH]; intros [content history]; simpl.
  - by rewrite append_nil_r, app_nil_r.
  - rewrite IH. simpl. by rewrite append_assoc, <- app_assoc.
Qed.

(** ** Worlds *)

Lemma after_calls_nil w : after_calls w w [].
Proof. unfold after_calls. by rewrite app_nil_r. Qed.

Lemma after_calls_trans w w1 w2 cs1 cs2 :
  after_calls w w1 cs1 → after_calls w1 w2 cs2 → after_calls w w2 (cs1 ++ cs2).
Proof.
  intros (Hb1 & Hs1 & Hc1) (Hb2 & Hs2 & Hc2). unfold after_calls.
  rewrite Hb2, Hb1, Hs2, Hs1, Hc2, Hc1. by rewrite app_assoc.
Qed.

Lemma after_calls_console w w' cs e :
  after_calls w w' cs → after_calls w (add_console e w') cs.
Proof. intros H. exact H. Qed.

(** ** The model calls *)

Lemma generatePersonaResponse_run env a h p k w :
  ∃ w', generatePersonaResponse env a h p k w = (Returns (reply env k), w')
    ∧ after_calls w w' [CallAI MODEL (personaPrompt a h p k) TOKENS_PER_TURN].
Proof.
  unfold generatePersonaResponse, reply, AI_run. run.
  destruct (AI_outcome env k); simpl; eexists; (split; [reflexivity |]);
    by repeat split.
Qed.

Lemma narratorIntroduction_run env a st w :
  ∃ w', narratorIntroduction env a st w
          = (Returns (foldl (λ s d, say d s) st (narration env)), w')
    ∧ after_calls w w' [narratorCall a].
Proof.
  unfold narratorIntroduction, narration, AI_run. run.
  destruct (AI_outcome env 0); simpl; eexists; (split; [reflexivity |]);
    by repeat split.
Qed.

Lemma asked_le env turns i : asked env turns i ≤ turns.
Proof.
  revert i; induction turns as [|turns IH]; intros i; simpl; [lia |].
  destruct (isEmpty (reply env (i + 1))); [lia |]. specialize (IH (S i)). lia.
Qed.

Lemma turnCalls_step env a ps h turns i :
  isEmpty (reply env (i + 1)) = false →
  turnCalls env a ps h (S turns) i
  = turnCall a ps h i :: turnCalls env a ps (h ++ [reply env (i + 1)]) turns (S i).
Proof.
  intros E. unfold turnCalls. simpl. rewrite E. simpl.
  rewrite app_nil_r, Nat.add_0_r. f_equal.
  rewrite <- fmap_S_seq, <- list_fmap_compose.
  apply list_fmap_ext. intros _ j _. simpl.
  rewrite <- app_assoc. simpl. f_equal. lia.
Qed.

Lemma dialogueFrom_run env a ps turns : ∀ i st w,
  ∃ w', dialogueFrom env a ps turns i st w
          = (Returns (foldl (λ s d, say d s) st (spoken env turns i)), w')
    ∧ after_calls w w' (turnCalls env a ps (snd st) turns i).
Proof.
  induction turns as [|turns IH]; intros i st w.
  - exists w. split; [reflexivity | apply after_calls_nil].
  - cbn [dialogueFrom]. unfold mbind, M_bind at 1.
    destruct (generatePersonaResponse_run env a (snd st)
                (currentPersona ps i) (i + 1) w) as (w1 & E1 & F1).
    rewrite E1. destruct (isEmpty (reply env (i + 1))) eqn:E.
    + run. eexists. split.
      * rewrite E. reflexivity.
      * unfold turnCalls. simpl. rewrite E. simpl.
        rewrite app_nil_r, Nat.add_0_r. apply after_calls_console, F1.
    + destruct (IH (S i) (say (reply env (i + 1)) st) w1) as (w2 & E2 & F2).
      exists w2. split.
      * rewrite E2. simpl. by rewrite E.
      * rewrite (turnCalls_step _ _ _ _ _ _ E).
        apply (after_calls_trans _ _ _ [_] _ F1 F2).
Qed.

(** ** The script *)

Lemma generateScript_run env a ps w :
  ∃ w', generateScript env a ps w = (Returns (fullScript env), w')
    ∧ after_calls w w'
        (narratorCall a :: turnCalls env a ps (narration env) MAX_TURNS 0).
Proof.
  unfold generateScript, dialogueGeneration. unfold mbind, M_bind.
  destruct (narratorIntroduction_run env a (speak_open, []) w) as (w1 & E1 & F1).
  rewrite E1.
  destruct (dialogueFrom_run env a ps MAX_TURNS 0
              (foldl (λ s d, say d s) (speak_open, []) (narration env)) w1)
    as (w2 & E2 & F2).
  rewrite E2. exists w2. split.
  - unfold mret, M_ret, fullScript. rewrite !say_all. cbn [fst snd].
    by rewrite glue_app, !append_assoc.
  - rewrite say_all in F2. apply (after_calls_trans _ _ _ [_] _ F1 F2).
Qed.

(** ** The PDF *)

Lemma extractTextFromPdf_run env url w :
  ∃ r w', extractTextFromPdf env url w = (r, w')
    ∧ after_calls w w' [CallFetch url]
    ∧ match r with
      | Throws e => ∃ msg, e = REFUSED msg
      | Returns text =>
          ∃ statusText raw,
            fetch_outcome env url = FetchResponds true statusText
            ∧ unpdf_outcome env url = UnpdfText raw ∧ text = trim raw
      end.
Proof.
  unfold extractTextFromPdf, fetch, unpdf. run.
  destruct (fetch_outcome env url) as [err | [|] statusText]; simpl.
  - do 2 eexists. split; [reflexivity |]. split; [by repeat split | by eexists].
  - destruct (unpdf_outcome env url) as [err | raw]; simpl.
    + do 2 eexists. split; [reflexivity |]. split; [by repeat split | by eexists].
    + do 2 eexists. split; [reflexivity |]. split; [by repeat split | by do 2 eexists].
  - do 2 eexists. split; [reflexivity |]. split; [by repeat split | by eexists].
Qed.

(** ** The dual write *)

Section Commit.
Context (env : Env) (content key name : string) (personas : list string).
Context (w : World).

Lemma commit_put_rejected err :
  put_outcome env = Some err →
  ∃ w', commit env content key name personas w
          = (Throws (ApiError R2_FAILED), w')
    ∧ after_calls w w' [CallPut key content]
    ∧ console w' = console w ++
        [console_error_entry [LStr "Error uploading to R2:"; LErr (JsError err)]].
Proof.
  intros Hput. unfold commit, R2_BUCKET_put. run. rewrite Hput. simpl.
  eexists. split; [reflexivity |]. by repeat split.
Qed.

Lemma commit_created id created_at :
  put_outcome env = None →
  insert_outcome env = Inserted id created_at →
  ∃ w', commit env content key name personas w
          = (Returns (mkCreated 201 true (newRow key name personas id created_at)), w')
    ∧ bucket w' = <[key:=content]> (bucket w)
    ∧ scripts w' = scripts w ++ [newRow key name personas id created_at]
    ∧ calls w' = calls w ++ [CallPut key content; insertCall key name personas]
    ∧ console w' = console w.
Proof.
  intros Hput Hins. unfold commit, R2_BUCKET_put, DB_insert_script. run.
  rewrite Hput. simpl. rewrite Hins. simpl.
  eexists. split; [reflexivity |]. simpl. rewrite <- app_assoc. by repeat split.
Qed.

Lemma commit_compensated err :
  put_outcome env = None →
  insert_outcome env = InsertThrows err →
  delete_outcome env = None →
  ∃ w', commit env content key name personas w
          = (Throws (ApiError D1_FAILED), w')
    ∧ bucket w' = delete key (<[key:=content]> (bucket w))
    ∧ scripts w' = scripts w
    ∧ calls w' = calls w ++ [CallPut key content; insertCall key name personas; CallDelete key]
    ∧ console w' = console w ++
        [console_error_entry [LStr "Error inserting into D1:"; LErr (JsError err)]].
Proof.
  intros Hput Hins Hdel.
  unfold commit, R2_BUCKET_put, DB_insert_script, R2_BUCKET_delete. run.
  rewrite Hput. simpl. rewrite Hins. simpl. rewrite Hdel. simpl.
  eexists. split; [reflexivity |]. simpl. rewrite <- !app_assoc. by repeat split.
Qed.

Lemma commit_orphaned err deleteError :
  put_outcome env = None →
  insert_outcome env = InsertThrows err →
  delete_outcome env = Some deleteError →
  ∃ w', commit env content key name personas w
          = (Throws (ApiError D1_FAILED), w')
    ∧ bucket w' = <[key:=content]> (bucket w)
    ∧ scripts w' = scripts w
    ∧ calls w' = calls w ++ [CallPut key content; insertCall key name personas; CallDelete key]
    ∧ console w' = console w ++
        [console_error_entry [LStr "Error inserting into D1:"; LErr (JsError err)];
         console_error_entry
           [LStr "Error cleaning up orphaned R2 file:"; LErr (JsError deleteError)]].
Proof.
  intros Hput Hins Hdel.
  unfold commit, R2_BUCKET_put, DB_insert_script, R2_BUCKET_delete. run.
  rewrite Hput. simpl. rewrite Hins. simpl. rewrite Hdel. simpl.
  eexists. split; [reflexivity |]. simpl. rewrite <- !app_assoc. by repeat split.
Qed.

End Commit.

(** ** The handler *)

(** [handle] either stops with status 400 after the fetch, or reaches the
    dual write with the generated script, in a world whose bucket and table
    are still those of the start. *)
Lemma handle_run env body w :
  let key := r2_file_link_of (now env) (Body.name body) in
  (∃ msg w', handle env body w = (Throws (REFUSED msg), w')
     ∧ after_calls w w' [CallFetch (Body.url body)])
  ∨ (∃ text w1,
       extracts env (Body.url body) text
       ∧ after_calls w w1
           (CallFetch (Body.url body) :: narratorCall text
              :: turnCalls env text (Body.personas body) (narration env) MAX_TURNS 0)
       ∧ handle env body w
         = commit env (fullScript env) key (Body.name body) (Body.personas body) w1).
Proof.
  intros key. unfold handle. unfold mbind, M_bind at 1.
  destruct (extractTextFromPdf_run env (Body.url body) w) as (r & w0 & E0 & F0 & R).
  rewrite E0. destruct r as [text | e]; cbv beta iota.
  - destruct (isEmpty text || (String.length (trim text) =? 0)) eqn:Hblank.
    + left. do 2 eexists. split; [reflexivity | exact F0].
    + right. destruct R as (statusText & raw & Hf & Hu & ->).
      destruct (generateScript_run env (trim raw) (Body.personas body) w0)
        as (w1 & E1 & F1).
      exists (trim raw), w1. split; [by exists statusText, raw |]. split.
      * apply (after_calls_trans _ _ _ [_] _ F0 F1).
      * unfold mbind, M_bind. rewrite E0. cbv beta iota.
        rewrite Hblank. by rewrite E1.
  - left. destruct R as (msg & ->). do 2 eexists. split; [reflexivity | exact F0].
Qed.

(** The four ways through the dual write, by the outcomes of the three
    calls. *)
Lemma commit_run env content key name personas w :
  ∃ r w', commit env content key name personas w = (r, w')
    ∧ match put_outcome env, insert_outcome env with
      | Some _, _ =>
          r = Throws (ApiError R2_FAILED)
          ∧ after_calls w w' [CallPut key content]
      | None, Inserted id created_at =>
          r = Returns (mkCreated 201 true (newRow key name personas id created_at))
          ∧ bucket w' = <[key:=content]> (bucket w)
          ∧ scripts w' = scripts w ++ [newRow key name personas id created_at]
          ∧ calls w' = calls w ++ [CallPut key content; insertCall key name personas]
      | None, InsertThrows _ =>
          r = Throws (ApiError D1_FAILED)
          ∧ bucket w' = match delete_outcome env with
                        | None => delete key (<[key:=content]> (bucket w))
                        | Some _ => <[key:=content]> (bucket w)
                        end
          ∧ scripts w' = scripts w
          ∧ calls w' = calls w ++
              [CallPut key content; insertCall key name personas; CallDelete key]
      end.
Proof.
  destruct (put_outcome env) as [err|] eqn:Hput.
  - destruct (commit_put_rejected env content key name personas w err Hput)
      as (w' & E & F & _).
    by exists (Throws (ApiError R2_FAILED)), w'.
  - destruct (insert_outcome env) as [err | id created_at] eqn:Hins.
    + destruct (delete_outcome env) as [deleteError|] eqn:Hdel.
      * destruct (commit_orphaned env content key name personas w err deleteError
                    Hput Hins Hdel) as (w' & E & Hb & Hs & Hc & _).
        by exists (Throws (ApiError D1_FAILED)), w'.
      * destruct (commit_compensated env content key name personas w err
                    Hput Hins Hdel) as (w' & E & Hb & Hs & Hc & _).
        by exists (Throws (ApiError D1_FAILED)), w'.
    + destruct (commit_created env content key name personas w id created_at
                  Hput Hins) as (w' & E & Hb & Hs & Hc & _).
      by eexists _, w'.
Qed.

(** ** The claims about the dual write *)

(** C2.  When the put and the insert both succeed, [commit] returns the
    record whose [r2_file_link] is the key handed to the put, and the
    bucket then holds exactly the given content under that key. *)
Theorem C2_commit_success env content key name personas w id created_at :
  put_outcome env = None →
  insert_outcome env = Inserted id created_at →
  ∃ row w',
    commit env content key name personas w
      = (Returns (mkCreated 201 true row), w')
    ∧ Row.r2_file_link row = key
    ∧ calls w' = calls w ++
        [CallPut key content; CallInsert name key (JSON_stringify personas)]
    ∧ bucket w' !! key = Some content.
Proof.
  intros Hput Hins.
  destruct (commit_created env content key name personas w id created_at
              Hput Hins) as (w' & E & Hb & Hs & Hc & _).
  exists (newRow key name personas id created_at), w'.
  repeat split; [exact E | exact Hc |].
  rewrite Hb. apply lookup_insert_eq.
Qed.

Lemma C2_commit_success_witness :
  ∃ row w',
    commit (sampleEnv None (Inserted 1 "2024-01-01 00:00:00") None)
      "<speak></speak>" "generated/1700-a.ssml" "a" ["Ada"] emptyWorld
      = (Returns (mkCreated 201 true row), w')
    ∧ Row.r2_file_link row = "generated/1700-a.ssml"
    ∧ calls w' = calls emptyWorld ++
        [CallPut "generated/1700-a.ssml" "<speak></speak>";
         CallInsert "a" "generated/1700-a.ssml" (JSON_stringify ["Ada"])]
    ∧ bucket w' !! "generated/1700-a.ssml" = Some "<speak></speak>".
Proof.
  apply (C2_commit_success
           (sampleEnv None (Inserted 1 "2024-01-01 00:00:00") None)
           "<speak></speak>" "generated/1700-a.ssml" "a" ["Ada"] emptyWorld
           1 "2024-01-01 00:00:00"); reflexivity.
Defined.

(** C3.  When the put succeeds and the insert fails, [commit] throws the
    metadata failure, the compensating delete of the key is issued, and
    when that delete succeeds the bucket has nothing under the key. *)
Theorem C3_insert_failure_compensated env content key name personas w err :
  put_outcome env = None →
  insert_outcome env = InsertThrows err →
  ∃ w',
    commit env content key name personas w = (Throws (ApiError D1_FAILED), w')
    ∧ calls w' = calls w ++
        [CallPut key content; CallInsert name key (JSON_stringify personas);
         CallDelete key]
    ∧ (delete_outcome env = None → bucket w' !! key = None).
Proof.
  intros Hput Hins.
  destruct (commit_run env content key name personas w) as (r & w' & E & H).
  rewrite Hput, Hins in H. destruct H as (-> & Hb & Hs & Hc).
  exists w'. repeat split; [exact E | exact Hc |].
  intros Hdel. rewrite Hb, Hdel. apply lookup_delete_eq.
Qed.

Lemma C3_insert_failure_compensated_witness :
  ∃ w',
    commit (sampleEnv None (InsertThrows "D1_ERROR") None)
      "<speak></speak>" "generated/1700-a.ssml" "a" ["Ada"] emptyWorld
      = (Throws (ApiError D1_FAILED), w')
    ∧ calls w' = calls emptyWorld ++
        [CallPut "generated/1700-a.ssml" "<speak></speak>";
         CallInsert "a" "generated/1700-a.ssml" (JSON_stringify ["Ada"]);
         CallDelete "generated/1700-a.ssml"]
    ∧ (delete_outcome (sampleEnv None (InsertThrows "D1_ERROR") None) = None →
       bucket w' !! "generated/1700-a.ssml" = None).
Proof.
  apply (C3_insert_failure_compensated
           (sampleEnv None (InsertThrows "D1_ERROR") None)
           "<speak></speak>" "generated/1700-a.ssml" "a" ["Ada"] emptyWorld
           "D1_ERROR"); reflexivity.
Defined.

(** C7, counterexample.  After a first [commit] stored an object under a
    key, a second one with the same key whose put fails leaves that object
    where it was: the bucket does have an entry under the key after the
    call. *)
Lemma C7_counterexample : ¬ put_failure_leaves_no_entry.
Proof.
  intros H.
  destruct (H (sampleEnv (Some "R2 unavailable") (Inserted 2 "t2") None)
              "<speak>two</speak>" "generated/1700-a.ssml" "a" ["Ada"]
              (commit (sampleEnv None (Inserted 1 "t1") None)
                 "<speak>one</speak>" "generated/1700-a.ssml" "a" ["Ada"]
                 emptyWorld).2
              "R2 unavailable" eq_refl)
    as (w' & E & _ & _ & Hb).
  injection E as <-. vm_compute in Hb. discriminate Hb.
Qed.

(** C7, amended.  When the put fails, [commit] throws the upload failure,
    the put is the only call it issues (no insert, no delete), the table is
    unchanged, and the bucket is exactly as it was: under the key it has
    what it had before the call, nothing when the key was fresh. *)
Theorem C7_put_failure_changes_nothing env content key name personas w err :
  put_outcome env = Some err →
  ∃ w',
    commit env content key name personas w = (Throws (ApiError R2_FAILED), w')
    ∧ calls w' = calls w ++ [CallPut key content]
    ∧ scripts w' = scripts w
    ∧ bucket w' = bucket w
    ∧ bucket w' !! key = bucket w !! key
    ∧ (bucket w !! key = None → bucket w' !! key = None).
Proof.
  intros Hput.
  destruct (commit_put_rejected env content key name personas w err Hput)
    as (w' & E & (Hb & Hs & Hc) & _).
  exists w'. rewrite Hb. by repeat split.
Qed.

Lemma C7_put_failure_changes_nothing_witness :
  ∃ w',
    commit (sampleEnv (Some "R2 unavailable") (Inserted 1 "now") None)
      "<speak></speak>" "generated/1700-a.ssml" "a" ["Ada"] emptyWorld
      = (Throws (ApiError R2_FAILED), w')
    ∧ calls w' = calls emptyWorld ++
        [CallPut "generated/1700-a.ssml" "<speak></speak>"]
    ∧ scripts w' = scripts emptyWorld
    ∧ bucket w' = bucket emptyWorld
    ∧ bucket w' !! "generated/1700-a.ssml"
      = bucket emptyWorld !! "generated/1700-a.ssml"
    ∧ (bucket emptyWorld !! "generated/1700-a.ssml" = None →
       bucket w' !! "generated/1700-a.ssml" = None).
Proof.
  apply (C7_put_failure_changes_nothing
           (sampleEnv (Some "R2 unavailable") (Inserted 1 "now") None)
           "<speak></speak>" "generated/1700-a.ssml" "a" ["Ada"] emptyWorld
           "R2 unavailable"); reflexivity.
Defined.

(** C4, counterexample.  With the insert failing, the caller receives the
    very same exception whether the delete fails or succeeds, so nothing
    read off the result can report the failed compensation. *)
Lemma C4_counterexample : ¬ compensation_failure_attached.
Proof.
  intros (secondary & H).
  pose proof (H (sampleEnv None (InsertThrows "D1_ERROR") (Some "R2 unavailable"))
                "<speak></speak>" "generated/1700-a.ssml" "a" ["Ada"] emptyWorld
                "D1_ERROR" eq_refl eq_refl) as Hfailed.
  pose proof (H (sampleEnv None (InsertThrows "D1_ERROR") None)
                "<speak></speak>" "generated/1700-a.ssml" "a" ["Ada"] emptyWorld
                "D1_ERROR" eq_refl eq_refl) as Hdeleted.
  simpl in Hfailed, Hdeleted. congruence.
Qed.

(** C4, amended.  When the insert and the compensating delete both fail,
    [commit] throws the metadata failure, the same exception as when the
    delete succeeds; the failed delete is reported on the console only, as
    the last entry; and the object stays in the bucket under the key. *)
Theorem C4_compensation_failure_logged env content key name personas w
    err deleteError :
  put_outcome env = None →
  insert_outcome env = InsertThrows err →
  delete_outcome env = Some deleteError →
  ∃ w',
    commit env content key name personas w = (Throws (ApiError D1_FAILED), w')
    ∧ (∀ env0 err0, put_outcome env0 = None →
         insert_outcome env0 = InsertThrows err0 →
         (commit env0 content key name personas w).1 = Throws (ApiError D1_FAILED))
    ∧ console w' = console w ++
        [console_error_entry [LStr "Error inserting into D1:"; LErr (JsError err)];
         console_error_entry
           [LStr "Error cleaning up orphaned R2 file:"; LErr (JsError deleteError)]]
    ∧ bucket w' !! key = Some content.
Proof.
  intros Hput Hins Hdel.
  destruct (commit_orphaned env content key name personas w err deleteError
              Hput Hins Hdel) as (w' & E & Hb & Hs & Hc & Hl).
  exists w'. repeat split; [exact E | | exact Hl |].
  - intros env0 err0 Hput0 Hins0.
    destruct (commit_run env0 content key name personas w) as (r & w0 & E0 & H).
    rewrite Hput0, Hins0 in H. rewrite E0. by destruct H as (-> & _).
  - rewrite Hb. apply lookup_insert_eq.
Qed.

Lemma C4_compensation_failure_logged_witness :
  ∃ w',
    commit (sampleEnv None (InsertThrows "D1_ERROR") (Some "R2 unavailable"))
      "<speak></speak>" "generated/1700-a.ssml" "a" ["Ada"] emptyWorld
      = (Throws (ApiError D1_FAILED), w')
    ∧ (∀ env0 err0, put_outcome env0 = None →
         insert_outcome env0 = InsertThrows err0 →
         (commit env0 "<speak></speak>" "generated/1700-a.ssml" "a" ["Ada"]
            emptyWorld).1 = Throws (ApiError D1_FAILED))
    ∧ console w' = console emptyWorld ++
        [console_error_entry
           [LStr "Error inserting into D1:"; LErr (JsError "D1_ERROR")];
         console_error_entry
           [LStr "Error cleaning up orphaned R2 file:";
            LErr (JsError "R2 unavailable")]]
    ∧ bucket w' !! "generated/1700-a.ssml" = Some "<speak></speak>".
Proof.
  apply (C4_compensation_failure_logged
           (sampleEnv None (InsertThrows "D1_ERROR") (Some "R2 unavailable"))
           "<speak></speak>" "generated/1700-a.ssml" "a" ["Ada"] emptyWorld
           "D1_ERROR" "R2 unavailable"); reflexivity.
Defined.

(** C5, counterexample.  [commit] never looks the key up and the bucket's
    put replaces: with a bucket and a database that accept the calls, the
    second [commit] with the same key succeeds too. *)
Lemma C5_counterexample : ¬ key_reuse_rejected.
Proof.
  intros H.
  destruct (H (sampleEnv None (Inserted 1 "t1") None)
              (sampleEnv None (Inserted 2 "t2") None)
              "<speak>one</speak>" "<speak>two</speak>" "generated/1700-a.ssml"
              "a" "a" ["Ada"] ["Ada"] emptyWorld _ _ eq_refl)
    as (w2 & E & _).
  vm_compute in E. discriminate E.
Qed.

(** What the second call of the counterexample does: it returns a second
    record, and the object of the first record is replaced. *)
Example key_reuse_overwrites :
  let env1 := sampleEnv None (Inserted 1 "t1") None in
  let env2 := sampleEnv None (Inserted 2 "t2") None in
  let key := "generated/1700-a.ssml" in
  let w1 := (commit env1 "<speak>one</speak>" key "a" ["Ada"] emptyWorld).2 in
  let second := commit env2 "<speak>two</speak>" key "a" ["Ada"] w1 in
  bucket w1 !! key = Some "<speak>one</speak>"
  ∧ second.1 = Returns (mkCreated 201 true (newRow key "a" ["Ada"] 2 "t2"))
  ∧ bucket second.2 !! key = Some "<speak>two</speak>"
  ∧ Row.r2_file_link <$> scripts second.2 = [key; key].
Proof. vm_compute. done. Qed.

(** With the key reused, a failed insert of the second call makes the
    compensating delete remove the object the first record refers to. *)
Example key_reuse_compensation_removes_first_object :
  let env1 := sampleEnv None (Inserted 1 "t1") None in
  let env2 := sampleEnv None (InsertThrows "D1_ERROR") None in
  let key := "generated/1700-a.ssml" in
  let w1 := (commit env1 "<speak>one</speak>" key "a" ["Ada"] emptyWorld).2 in
  let second := commit env2 "<speak>two</speak>" key "a" ["Ada"] w1 in
  second.1 = Throws (ApiError D1_FAILED)
  ∧ Row.r2_file_link <$> scripts second.2 = [key]
  ∧ bucket second.2 !! key = None.
Proof. vm_compute. done. Qed.

(** C5, amended.  After a first [commit] succeeded with a key, a second one
    with the same key throws the upload failure exactly when the bucket
    rejects the put, and then the bucket and the table are left as they
    were, the first record and its object included; when the bucket accepts
    the put, the object under the key is replaced by the second content, or
    removed when the insert fails and the compensating delete succeeds. *)
Theorem C5_key_reuse env1 env2 content1 content2 key name1 name2
    personas1 personas2 w created w1 :
  commit env1 content1 key name1 personas1 w = (Returns created, w1) →
  ∃ r2 w2,
    commit env2 content2 key name2 personas2 w1 = (r2, w2)
    ∧ (r2 = Throws (ApiError R2_FAILED) ↔ is_Some (put_outcome env2))
    ∧ (is_Some (put_outcome env2) →
       bucket w2 = bucket w1 ∧ scripts w2 = scripts w1
       ∧ bucket w2 !! key = Some content1 ∧ result created ∈ scripts w2)
    ∧ (put_outcome env2 = None →
       bucket w2 !! key
       = match insert_outcome env2, delete_outcome env2 with
         | InsertThrows _, None => None
         | _, _ => Some content2
         end).
Proof.
  intros E1.
  destruct (commit_run env1 content1 key name1 personas1 w) as (r & w1' & E & H1).
  rewrite E1 in E. injection E as <- <-.
  assert (bucket w1 !! key = Some content1 ∧ result created ∈ scripts w1) as [Hb1 Hs1].
  { destruct (put_outcome env1); [by destruct H1 |].
    destruct (insert_outcome env1); [by destruct H1 |].
    destruct H1 as (Hr & Hb & Hs & _). injection Hr as ->. split.
    - rewrite Hb. apply lookup_insert_eq.
    - rewrite Hs. simpl. set_solver. }
  destruct (commit_run env2 content2 key name2 personas2 w1) as (r2 & w2 & E2 & H2).
  exists r2, w2. split; [exact E2 |].
  destruct (put_outcome env2) as [err2|].
  - destruct H2 as (-> & Hb & Hs & Hc). repeat split; try done.
    + by rewrite Hb.
    + by rewrite Hs.
  - split; [split |]; [| by intros [? ?] | split; [by intros [? ?] |]].
    + intros ->. destruct (insert_outcome env2); by destruct H2.
    + intros _. destruct (insert_outcome env2).
      * destruct H2 as (_ & -> & _).
        destruct (delete_outcome env2);
          [apply lookup_insert_eq | apply lookup_delete_eq].
      * destruct H2 as (_ & -> & _). apply lookup_insert_eq.
Qed.

Lemma C5_key_reuse_witness :
  let env1 := sampleEnv None (Inserted 1 "t1") None in
  let env2 := sampleEnv (Some "R2 unavailable") (Inserted 2 "t2") None in
  let key := "generated/1700-a.ssml" in
  let first := commit env1 "<speak>one</speak>" key "a" ["Ada"] emptyWorld in
  ∃ r2 w2,
    commit env2 "<speak>two</speak>" key "a" ["Ada"] first.2 = (r2, w2)
    ∧ (r2 = Throws (ApiError R2_FAILED) ↔ is_Some (put_outcome env2))
    ∧ (is_Some (put_outcome env2) →
       bucket w2 = bucket first.2 ∧ scripts w2 = scripts first.2
       ∧ bucket w2 !! key = Some "<speak>one</speak>"
       ∧ newRow key "a" ["Ada"] 1 "t1" ∈ scripts w2)
    ∧ (put_outcome env2 = None →
       bucket w2 !! key
       = match insert_outcome env2, delete_outcome env2 with
         | InsertThrows _, None => None
         | _, _ => Some "<speak>two</speak>"
         end).
Proof.
  intros env1 env2 key first.
  apply (C5_key_reuse env1 env2 "<speak>one</speak>" "<speak>two</speak>" key
           "a" "a" ["Ada"] ["Ada"] emptyWorld
           (mkCreated 201 true (newRow key "a" ["Ada"] 1 "t1")) first.2).
  reflexivity.
Defined.

(** ** The storage key *)

Lemma replace_runs_noWhiteSpace s : ∀ in_run, noWhiteSpace (replace_runs in_run s).
Proof.
  unfold noWhiteSpace.
  induction s as [|c s IH]; intros in_run; simpl; [constructor |].
  destruct (isWhiteSpace c) eqn:E.
  - destruct in_run; [apply IH |]. simpl. constructor; [reflexivity | apply IH].
  - simpl. constructor; [exact E | apply IH].
Qed.

Lemma replace_runs_id s :
  noWhiteSpace s → replace_runs false s = s.
Proof.
  unfold noWhiteSpace. induction s as [|c s IH]; simpl; [reflexivity |].
  intros H. apply Forall_cons in H as [-> H]. by rewrite (IH H).
Qed.

Lemma turnCalls_not_store env a ps h turns i :
  Forall (λ c, is_store_call c = false) (turnCalls env a ps h turns i).
Proof. unfold turnCalls. apply Forall_fmap, Forall_true. by intros j. Qed.

(** Before the dual write [handle] touches neither store: it stops with
    status 400, or goes on to [commit] with the key made of the clock and
    the name, and the generated script. *)
Lemma handle_commit env body w :
  ∃ before w1,
    after_calls w w1 before
    ∧ Forall (λ c, is_store_call c = false) before
    ∧ ((∃ msg, handle env body w = (Throws (REFUSED msg), w1))
       ∨ handle env body w
         = commit env (fullScript env)
             (r2_file_link_of (now env) (Body.name body))
             (Body.name body) (Body.personas body) w1).
Proof.
  destruct (handle_run env body w) as [(msg & w' & E & F) | (text & w1 & _ & F & E)].
  - exists [CallFetch (Body.url body)], w'. split; [exact F |].
    split; [by repeat constructor | left; by exists msg].
  - eexists _, w1. split; [exact F |]. split; [| by right].
    do 2 (constructor; [reflexivity |]). apply turnCalls_not_store.
Qed.

(** C6, counterexample.  For the name [my file] at time 1700 the key is
    [generated/1700-my-file.ssml], not [my-file-1700]. *)
Lemma C6_counterexample : ¬ key_is_name_then_timestamp.
Proof.
  intros H. specialize (H "my file" 1700%N). vm_compute in H. discriminate H.
Qed.

Example r2_file_link_of_my_file :
  r2_file_link_of 1700 "my file" = "generated/1700-my-file.ssml"
  ∧ replace_whitespace "my file" +:+ "-" +:+ Number_toString 1700 = "my-file-1700".
Proof. split; reflexivity. Qed.

(** C6, amended.  For every name and timestamp the key is the prefix
    [generated/], the timestamp in decimal, a hyphen, the name with each
    run of white space replaced by one hyphen, and the suffix [.ssml]; the
    sanitized name holds no white space and is the name itself when the
    name holds none; and this is the key of every put that [handle]
    issues. *)
Theorem C6_storage_key (name : string) (timestamp : N) :
  r2_file_link_of timestamp name
  = "generated/" +:+ Number_toString timestamp +:+ "-"
      +:+ replace_whitespace name +:+ ".ssml"
  ∧ noWhiteSpace (replace_whitespace name)
  ∧ (noWhiteSpace name → replace_whitespace name = name)
  ∧ ∀ env body w,
      ∃ new, calls (handle env body w).2 = calls w ++ new
        ∧ ∀ key content, CallPut key content ∈ new →
            key = r2_file_link_of (now env) (Body.name body).
Proof.
  split; [reflexivity |]. split; [apply replace_runs_noWhiteSpace |].
  split; [apply replace_runs_id |].
  intros env body w.
  destruct (handle_commit env body w) as (before & w1 & (_ & _ & Hc) & Hb & [[msg E] | E]).
  - exists before. rewrite E. split; [exact Hc |].
    intros key content Hin. rewrite Forall_forall in Hb. by apply Hb in Hin.
  - rewrite E.
    destruct (commit_run env (fullScript env)
                (r2_file_link_of (now env) (Body.name body))
                (Body.name body) (Body.personas body) w1) as (r & w' & -> & H).
    assert (∃ after, calls w' = calls w1 ++ after
              ∧ ∀ key content, CallPut key content ∈ after →
                  key = r2_file_link_of (now env) (Body.name body))
      as (after & Ha & Hkey).
    { destruct (put_outcome env); [| destruct (insert_outcome env)].
      - destruct H as (_ & _ & _ & ->). eexists. split; [reflexivity |].
        intros key content Hin%list_elem_of_In. unfold insertCall in Hin.
        simpl in Hin. intuition congruence.
      - destruct H as (_ & _ & _ & ->). eexists. split; [reflexivity |].
        intros key content Hin%list_elem_of_In. unfold insertCall in Hin.
        simpl in Hin. intuition congruence.
      - destruct H as (_ & _ & _ & ->). eexists. split; [reflexivity |].
        intros key content Hin%list_elem_of_In. unfold insertCall in Hin.
        simpl in Hin. intuition congruence. }
    exists (before ++ after). simpl. rewrite Ha, Hc, app_assoc. split; [reflexivity |].
    intros key content [Hin | Hin]%elem_of_app; [| by eapply Hkey].
    rewrite Forall_forall in Hb. by apply Hb in Hin.
Qed.

(** ** Records and objects *)

Lemma commit_record_after_blob env content key name personas w before w0 :
  scripts w = scripts w0 → calls w = calls w0 ++ before →
  record_after_blob env w0 (commit env content key name personas w).
Proof.
  intros Hs0 Hc0.
  destruct (commit_run env content key name personas w) as (r & w' & -> & H).
  destruct (put_outcome env) as [err|] eqn:Hput; [| destruct (insert_outcome env)].
  - destruct H as (-> & _ & Hs & _). left. simpl. by rewrite Hs, Hs0.
  - destruct H as (-> & _ & Hs & _). left. simpl. by rewrite Hs, Hs0.
  - destruct H as (-> & Hb & Hs & Hc). right.
    exists (newRow key name personas id created_at), content, before. simpl.
    rewrite Hs, Hs0, Hc, Hc0, Hb, <- app_assoc.
    repeat split; try done. apply lookup_insert_eq.
Qed.

(** C1.  Whatever the platform does, a row is created only after the put
    of its key was accepted: for [commit] with any content and key, and for
    the whole of [handle]; the record returned is that row and its object
    is in the bucket. *)
Theorem C1_record_refers_to_written_blob (env : Env) :
  (∀ content key name personas w,
     record_after_blob env w (commit env content key name personas w))
  ∧ (∀ body w, record_after_blob env w (handle env body w)).
Proof.
  split.
  - intros content key name personas w.
    apply (commit_record_after_blob _ _ _ _ _ _ []); [done | by rewrite app_nil_r].
  - intros body w.
    destruct (handle_commit env body w)
      as (before & w1 & (Hb & Hs & Hc) & _ & [[msg E] | E]); rewrite E.
    + left. by split.
    + by apply (commit_record_after_blob _ _ _ _ _ _ before).
Qed.

Lemma commit_record_or_error env content key name personas w w0 :
  scripts w = scripts w0 →
  record_or_error env key name personas w0
    (commit env content key name personas w).
Proof.
  intros Hs0. unfold record_or_error.
  destruct (commit_run env content key name personas w) as (r & w' & -> & H).
  destruct (put_outcome env) as [err|]; [| destruct (insert_outcome env) eqn:Hins].
  - destruct H as (-> & _ & Hs & _). simpl. rewrite Hs, Hs0. split; [by eexists | done].
  - destruct H as (-> & _ & Hs & _). simpl. rewrite Hs, Hs0. split; [by eexists | done].
  - destruct H as (-> & _ & Hs & _). simpl. rewrite Hs, Hs0. by exists id, created_at.
Qed.

(** C8.  On every failure path, of [commit] and of the whole of [handle],
    the caller gets an [ApiException] and no record, and the table has no
    new row; otherwise the caller gets the complete row the database
    returned, which is the one row added. *)
Theorem C8_record_or_error (env : Env) :
  (∀ content key name personas w,
     record_or_error env key name personas w
       (commit env content key name personas w))
  ∧ (∀ body w,
       record_or_error env (r2_file_link_of (now env) (Body.name body))
         (Body.name body) (Body.personas body) w (handle env body w)).
Proof.
  split.
  - intros content key name personas w. by apply commit_record_or_error.
  - intros body w.
    destruct (handle_commit env body w)
      as (before & w1 & (Hb & Hs & Hc) & _ & [[msg E] | E]); rewrite E.
    + unfold record_or_error. simpl. split; [by eexists | done].
    + by apply commit_record_or_error.
Qed.

(** ** The envelope of the script *)

Lemma fullScript_enveloped env : enveloped (fullScript env).
Proof. by eexists. Qed.

(** C10.  Whatever the model answers, narrator and personas failing
    included, script generation returns an enveloped script; every put that
    [handle] issues carries it; and every object in the bucket after
    [handle] either was there before or is that enveloped script. *)
Theorem C10_script_keeps_envelope (env : Env) (body : Body.t) (w : World) :
  (∀ articleText personas w0,
     ∃ script w1, generateScript env articleText personas w0 = (Returns script, w1)
       ∧ enveloped script)
  ∧ (∃ new, calls (handle env body w).2 = calls w ++ new
       ∧ ∀ key content, CallPut key content ∈ new → enveloped content)
  ∧ (∀ key content, bucket (handle env body w).2 !! key = Some content →
       bucket w !! key = Some content ∨ enveloped content).
Proof.
  split; [| split].
  - intros articleText personas w0.
    destruct (generateScript_run env articleText personas w0) as (w1 & E & _).
    exists (fullScript env), w1. split; [exact E | apply fullScript_enveloped].
  - destruct (handle_commit env body w)
      as (before & w1 & (_ & _ & Hc) & Hb & [[msg E] | E]); rewrite E.
    + exists before. split; [exact Hc |].
      intros key content Hin. rewrite Forall_forall in Hb. by apply Hb in Hin.
    + destruct (commit_run env (fullScript env)
                  (r2_file_link_of (now env) (Body.name body))
                  (Body.name body) (Body.personas body) w1) as (r & w' & -> & H).
      assert (∃ after, calls w' = calls w1 ++ after
                ∧ ∀ key content, CallPut key content ∈ after →
                    content = fullScript env) as (after & Ha & Hput).
      { destruct (put_outcome env); [| destruct (insert_outcome env)];
          destruct H as (_ & _ & _ & ->); (eexists; split; [reflexivity |]);
          intros key content Hin%list_elem_of_In; unfold insertCall in Hin;
          simpl in Hin; intuition congruence. }
      exists (before ++ after). simpl. rewrite Ha, Hc, app_assoc.
      split; [reflexivity |].
      intros key content [Hin | Hin]%elem_of_app.
      * rewrite Forall_forall in Hb. by apply Hb in Hin.
      * rewrite (Hput _ _ Hin). apply fullScript_enveloped.
  - intros key content.
    destruct (handle_commit env body w)
      as (before & w1 & (Hb & _ & _) & _ & [[msg E] | E]); rewrite E; simpl.
    + rewrite Hb. by left.
    + destruct (commit_run env (fullScript env)
                  (r2_file_link_of (now env) (Body.name body))
                  (Body.name body) (Body.personas body) w1) as (r & w' & -> & H).
      simpl. set (k := r2_file_link_of (now env) (Body.name body)) in *.
      assert (bucket w' = bucket w ∨ bucket w' = <[k:=fullScript env]> (bucket w)
              ∨ bucket w' = delete k (<[k:=fullScript env]> (bucket w)))
        as [-> | [-> | ->]].
      { destruct (put_outcome env); [| destruct (insert_outcome env)].
        - destruct H as (_ & -> & _). by left.
        - destruct H as (_ & -> & _). rewrite Hb.
          destruct (delete_outcome env); auto.
        - destruct H as (_ & -> & _). rewrite Hb. auto. }
      * by left.
      * destruct (decide (k = key)) as [<- | Hne].
        -- rewrite lookup_insert_eq. intros [= <-]. right. apply fullScript_enveloped.
        -- rewrite lookup_insert_ne by done. by left.
      * destruct (decide (k = key)) as [<- | Hne].
        -- by rewrite lookup_delete_eq.
        -- rewrite lookup_delete_ne, lookup_insert_ne by done. by left.
Qed.

(** ** The dialogue loop *)

Lemma isEmpty_true s : isEmpty s = true ↔ s = EmptyString.
Proof. by destruct s. Qed.

Lemma isEmpty_false s : isEmpty s = false ↔ s ≠ EmptyString.
Proof. by destruct s. Qed.

Lemma spoken_lookup env turns : ∀ i j,
  j < length (spoken env turns i) →
  spoken env turns i !! j = Some (reply env (i + j + 1))
  ∧ reply env (i + j + 1) ≠ EmptyString.
Proof.
  induction turns as [|turns IH]; intros i j; simpl; [lia |].
  destruct (isEmpty (reply env (i + 1))) eqn:E; simpl; [lia |].
  destruct j as [|j]; simpl.
  - intros _. rewrite Nat.add_0_r. by apply isEmpty_false in E.
  - intros Hj. replace (i + S j + 1) with (S i + j + 1) by lia. apply IH. lia.
Qed.

Lemma asked_spoken env turns : ∀ i,
  (asked env turns i = turns ∧ length (spoken env turns i) = turns)
  ∨ (asked env turns i = S (length (spoken env turns i))
     ∧ reply env (i + asked env turns i) = EmptyString).
Proof.
  induction turns as [|turns IH]; intros i; simpl; [by left |].
  destruct (isEmpty (reply env (i + 1))) eqn:E; simpl.
  - right. by apply isEmpty_true in E.
  - destruct (IH (S i)) as [[-> ->] | [Ha Hr]]; [by left | right].
    split; [by rewrite Ha |].
    by replace (i + S (asked env turns (S i))) with (S i + asked env turns (S i)) by lia.
Qed.

Lemma extractTextFromPdf_text env url w statusText raw :
  fetch_outcome env url = FetchResponds true statusText →
  unpdf_outcome env url = UnpdfText raw →
  extractTextFromPdf env url w = (Returns (trim raw), add_call (CallFetch url) w).
Proof.
  intros Hf Hu. unfold extractTextFromPdf, fetch, unpdf. run.
  rewrite Hf. simpl. by rewrite Hu.
Qed.

Lemma handle_extracts env body w text :
  extracts env (Body.url body) text →
  ∃ w1,
    after_calls w w1
      (CallFetch (Body.url body) :: narratorCall text
         :: turnCalls env text (Body.personas body) (narration env) MAX_TURNS 0)
    ∧ handle env body w
      = commit env (fullScript env) (r2_file_link_of (now env) (Body.name body))
          (Body.name body) (Body.personas body) w1.
Proof.
  intros (statusText & raw & Hf & Hu & -> & Hblank).
  destruct (generateScript_run env (trim raw) (Body.personas body)
              (add_call (CallFetch (Body.url body)) w)) as (w1 & E1 & F1).
  exists w1. split.
  - apply (after_calls_trans _ (add_call (CallFetch (Body.url body)) w) _ [_] _);
      [by repeat split | exact F1].
  - unfold handle. unfold mbind, M_bind at 1.
    rewrite (extractTextFromPdf_text env _ w statusText raw Hf Hu).
    cbv beta iota. rewrite Hblank. unfold mbind, M_bind. by rewrite E1.
Qed.

(** C9.  When the PDF yields text and both stores accept their call, the
    loop asks for [n] persona turns, at most ten; turn [j] goes to persona
    [j mod length personas], with the lines so far as history; the lines
    kept are the answers of the turns before the first empty one; the loop
    stops after ten turns or at the first empty answer; and [handle] still
    uploads the script made of those lines and returns status 201 with
    [success: true]. *)
Theorem C9_dialogue_turns env body w text id created_at :
  extracts env (Body.url body) text →
  put_outcome env = None →
  insert_outcome env = Inserted id created_at →
  let personas := Body.personas body in
  let key := r2_file_link_of (now env) (Body.name body) in
  ∃ n lines w',
    MAX_TURNS = 10 ∧ n ≤ MAX_TURNS
    ∧ (∀ j, j < length lines →
         lines !! j = Some (reply env (j + 1)) ∧ reply env (j + 1) ≠ EmptyString)
    ∧ (n = MAX_TURNS ∧ length lines = MAX_TURNS
       ∨ n = S (length lines) ∧ reply env n = EmptyString)
    ∧ calls w' = calls w
        ++ [CallFetch (Body.url body); narratorCall text]
        ++ ((λ j, CallAI MODEL
                    (personaPrompt text (narration env ++ take j lines)
                       (default "undefined" (personas !! (j mod length personas)))
                       (j + 1))
                    TOKENS_PER_TURN) <$> seq 0 n)
        ++ [CallPut key (speak_open +:+ glue (narration env ++ lines) +:+ speak_close);
            CallInsert (Body.name body) key (JSON_stringify personas)]
    ∧ handle env body w
      = (Returns (mkCreated 201 true
                    (Row.mk id (Body.name body) key created_at
                       (JSON_stringify personas))), w')
    ∧ bucket w' !! key
      = Some (speak_open +:+ glue (narration env ++ lines) +:+ speak_close).
Proof.
  intros Hpdf Hput Hins personas key.
  destruct (handle_extracts env body w text Hpdf) as (w1 & (Hb1 & Hs1 & Hc1) & E).
  destruct (commit_created env (fullScript env) key (Body.name body) personas w1
              id created_at Hput Hins) as (w' & E' & Hb & Hs & Hc & _).
  exists (asked env MAX_TURNS 0), (spoken env MAX_TURNS 0), w'.
  split; [reflexivity |]. split; [apply asked_le |]. split; [| split; [| split; [| split]]].
  - intros j Hj. apply (spoken_lookup env MAX_TURNS 0 j Hj).
  - apply (asked_spoken env MAX_TURNS 0).
  - rewrite Hc, Hc1. rewrite <- !app_assoc. reflexivity.
  - rewrite E. exact E'.
  - rewrite Hb. apply lookup_insert_eq.
Qed.

Lemma C9_dialogue_turns_witness :
  let env := sampleEnv None (Inserted 1 "2024-01-01 00:00:00") None in
  let personas := Body.personas sampleBody in
  let key := r2_file_link_of (now env) (Body.name sampleBody) in
  ∃ n lines w',
    MAX_TURNS = 10 ∧ n ≤ MAX_TURNS
    ∧ (∀ j, j < length lines →
         lines !! j = Some (reply env (j + 1)) ∧ reply env (j + 1) ≠ EmptyString)
    ∧ (n = MAX_TURNS ∧ length lines = MAX_TURNS
       ∨ n = S (length lines) ∧ reply env n = EmptyString)
    ∧ calls w' = calls emptyWorld
        ++ [CallFetch (Body.url sampleBody); narratorCall "An article."]
        ++ ((λ j, CallAI MODEL
                    (personaPrompt "An article." (narration env ++ take j lines)
                       (default "undefined" (personas !! (j mod length personas)))
                       (j + 1))
                    TOKENS_PER_TURN) <$> seq 0 n)
        ++ [CallPut key (speak_open +:+ glue (narration env ++ lines) +:+ speak_close);
            CallInsert (Body.name sampleBody) key (JSON_stringify personas)]
    ∧ handle env sampleBody emptyWorld
      = (Returns (mkCreated 201 true
                    (Row.mk 1 (Body.name sampleBody) key "2024-01-01 00:00:00"
                       (JSON_stringify personas))), w')
    ∧ bucket w' !! key
      = Some (speak_open +:+ glue (narration env ++ lines) +:+ speak_close).
Proof.
  intros env personas key.
  apply (C9_dialogue_turns env sampleBody emptyWorld "An article."
           1 "2024-01-01 00:00:00").
  - exists "OK", " An article. ". repeat split; reflexivity.
  - reflexivity.
  - reflexivity.
Defined.

(** The sample request: the model answers the narrator and two persona
    turns, the third turn fails, and the request still succeeds with the
    three lines in the script. *)
Example handle_sample_truncated :
  let env := sampleEnv None (Inserted 1 "2024-01-01 00:00:00") None in
  let o := handle env sampleBody emptyWorld in
  reply env 3 = EmptyString
  ∧ length (calls o.2) = 7
  ∧ o.1 = Returns (mkCreated 201 true
                     (Row.mk 1 "my file" "generated/1700-my-file.ssml"
                        "2024-01-01 00:00:00"
                        ("[" +:+ dquote +:+ "Ada" +:+ dquote +:+ ","
                           +:+ dquote +:+ "Bob" +:+ dquote +:+ "]")))
  ∧ bucket o.2 !! "generated/1700-my-file.ssml"
    = Some (speak_open +:+ "<voice/><voice/><voice/>" +:+ speak_close).
Proof. vm_compute. done. Qed.


(** * Further properties of the code *)

(** ** Trimming *)

Lemma trimStart_empty s : trimStart s = EmptyString ↔ allWhiteSpace s = true.
Proof.
  induction s as [|c s IH]; simpl; [done |].
  destruct (isWhiteSpace c); simpl; [exact IH | done].
Qed.

Lemma trimStart_start s : startsWithSpace (trimStart s) = false.
Proof.
  induction s as [|c s IH]; simpl; [done |].
  destruct (isWhiteSpace c) eqn:E; simpl; [exact IH | exact E].
Qed.

Lemma trimEnd_empty s : trimEnd s = EmptyString ↔ allWhiteSpace s = true.
Proof.
  induction s as [|c s IH]; simpl; [done |].
  destruct (isWhiteSpace c); simpl; [| done].
  destruct (trimEnd s) eqn:E; simpl.
  - split; [intros _; by apply IH | done].
  - split; [done |]. intros H. by apply IH in H.
Qed.

Lemma trimEnd_start s :
  startsWithSpace s = false → startsWithSpace (trimEnd s) = false.
Proof.
  destruct s as [|c s]; simpl; [done |]. intros H. rewrite H. simpl. exact H.
Qed.

Lemma trimEnd_end s : endsWithSpace (trimEnd s) = false.
Proof.
  induction s as [|c s IH]; simpl; [done |].
  destruct (trimEnd s) as [|d t] eqn:E.
  - rewrite andb_true_r. destruct (isWhiteSpace c) eqn:Ec; simpl; [done | exact Ec].
  - rewrite andb_false_r. simpl in *. exact IH.
Qed.

Lemma trimEnd_idem s : trimEnd (trimEnd s) = trimEnd s.
Proof.
  induction s as [|c s IH]; simpl; [done |].
  destruct (isWhiteSpace c && isEmpty (trimEnd s)) eqn:E; simpl; [done |].
  by rewrite IH, E.
Qed.

Lemma trimStart_id s : startsWithSpace s = false → trimStart s = s.
Proof. destruct s as [|c s]; simpl; [done |]. by intros ->. Qed.

Lemma trim_idem s : trim (trim s) = trim s.
Proof.
  unfold trim.
  rewrite (trimStart_id (trimEnd (trimStart s))).
  - apply trimEnd_idem.
  - apply trimEnd_start, trimStart_start.
Qed.

Lemma allWhiteSpace_trimStart s : allWhiteSpace (trimStart s) = allWhiteSpace s.
Proof.
  induction s as [|c s IH]; simpl; [done |].
  destruct (isWhiteSpace c) eqn:E; simpl; [exact IH | by rewrite E].
Qed.

Lemma trim_empty s : trim s = EmptyString ↔ allWhiteSpace s = true.
Proof. unfold trim. by rewrite trimEnd_empty, allWhiteSpace_trimStart. Qed.

Lemma length_zero s : (String.length s =? 0) = isEmpty s.
Proof. by destruct s. Qed.

(** The guard of [handle] on the text that [extractTextFromPdf] returns:
    its second test repeats the first. *)
Lemma blank_guard raw :
  isEmpty (trim raw) || (String.length (trim (trim raw)) =? 0)
  = allWhiteSpace raw.
Proof.
  rewrite trim_idem, length_zero, orb_diag.
  destruct (allWhiteSpace raw) eqn:E.
  - apply isEmpty_true, trim_empty, E.
  - apply isEmpty_false. intros H%trim_empty. congruence.
Qed.

(** X1.  The text [extractTextFromPdf] returns neither starts nor ends
    with white space, trimming it again changes nothing, and it is empty
    exactly when the second test of the guard of [handle] holds. *)
Theorem extractTextFromPdf_trimmed env url w text w' :
  extractTextFromPdf env url w = (Returns text, w') →
  startsWithSpace text = false
  ∧ endsWithSpace text = false
  ∧ trim text = text
  ∧ (String.length (trim text) =? 0) = isEmpty text.
Proof.
  intros E.
  destruct (extractTextFromPdf_run env url w) as (r & w0 & E0 & _ & R).
  rewrite E in E0. injection E0 as <- <-.
  destruct R as (statusText & raw & _ & _ & ->).
  split; [apply trimEnd_start, trimStart_start |].
  split; [apply trimEnd_end |]. split; [apply trim_idem |].
  by rewrite trim_idem, length_zero.
Qed.

Lemma extractTextFromPdf_trimmed_witness :
  startsWithSpace "An article." = false
  ∧ endsWithSpace "An article." = false
  ∧ trim "An article." = "An article."
  ∧ (String.length (trim "An article.") =? 0) = isEmpty "An article.".
Proof.
  apply (extractTextFromPdf_trimmed (sampleEnv None (Inserted 1 "t") None)
           "https://example.org/a.pdf" emptyWorld "An article."
           (add_call (CallFetch "https://example.org/a.pdf") emptyWorld)).
  reflexivity.
Defined.

(** ** Failures of the extraction *)

(** X2.  When [extractTextFromPdf] throws, it throws an [ApiException]
    whose message names the URL and the cause: the error of the fetch, the
    status text of a response that is not [ok], or the error of unpdf,
    which is reached only after an [ok] response.  Its status is 500, the
    400 of line 18 being an argument the constructor does not read.  The
    fetch is the only call, the stores are untouched and the cause is
    logged. *)
Theorem extractTextFromPdf_failure env url w e w' :
  extractTextFromPdf env url w = (Throws e, w') →
  ∃ cause,
    e = ApiError (mkApiException
          ("Failed to process PDF from url: " +:+ url +:+ ". " +:+ cause) 500)
    ∧ (fetch_outcome env url = FetchThrows cause
       ∨ (∃ statusText, fetch_outcome env url = FetchResponds false statusText
            ∧ cause = "Failed to fetch PDF: " +:+ statusText)
       ∨ (∃ statusText, fetch_outcome env url = FetchResponds true statusText
            ∧ unpdf_outcome env url = UnpdfThrows cause))
    ∧ after_calls w w' [CallFetch url]
    ∧ console w' = console w ++
        [console_error_entry
           [LStr "Error extracting text from PDF:"; LErr (JsError cause)]].
Proof.
  unfold extractTextFromPdf, fetch, unpdf. run.
  destruct (fetch_outcome env url) as [err | [|] statusText]; simpl.
  - intros [= <- <-]. exists err. repeat split; auto.
  - destruct (unpdf_outcome env url) as [err | raw]; simpl; [| done].
    intros [= <- <-]. exists err. repeat split; eauto.
  - intros [= <- <-]. eexists. repeat split; eauto.
Qed.

Lemma extractTextFromPdf_failure_witness :
  let env :=
    mkEnv (λ _, FetchResponds false "Not Found") (λ _, UnpdfText "never read")
      (λ _, AiThrows "unused") 1700 None (Inserted 1 "t") None in
  let url := "https://example.org/a.pdf" in
  let w' := (extractTextFromPdf env url emptyWorld).2 in
  ∃ cause,
    ApiError (mkApiException
      "Failed to process PDF from url: https://example.org/a.pdf. Failed to fetch PDF: Not Found"
      500)
    = ApiError (mkApiException
        ("Failed to process PDF from url: " +:+ url +:+ ". " +:+ cause) 500)
    ∧ (fetch_outcome env url = FetchThrows cause
       ∨ (∃ statusText, fetch_outcome env url = FetchResponds false statusText
            ∧ cause = "Failed to fetch PDF: " +:+ statusText)
       ∨ (∃ statusText, fetch_outcome env url = FetchResponds true statusText
            ∧ unpdf_outcome env url = UnpdfThrows cause))
    ∧ after_calls emptyWorld w' [CallFetch url]
    ∧ console w' = console emptyWorld ++
        [console_error_entry
           [LStr "Error extracting text from PDF:"; LErr (JsError cause)]].
Proof.
  intros env url w'.
  apply (extractTextFromPdf_failure env url emptyWorld). reflexivity.
Defined.

(** ** Failures of the handler *)

Lemma commit_not_could_not_extract env content key name personas w w' :
  commit env content key name personas w
  ≠ (Throws (ApiError (mkApiException
               "Could not extract text from the provided PDF." 500)), w').
Proof.
  destruct (commit_run env content key name personas w) as (r & w0 & -> & H).
  destruct (put_outcome env); [| destruct (insert_outcome env)];
    destruct H as (-> & _); intros E; injection E as E _; discriminate E.
Qed.

(** X3.  A PDF whose text is nothing but white space is refused right
    after the fetch with the [ApiException] of line 74, whose status is 500
    (the 400 passed is not read): no model call, no put, no insert,
    nothing logged.  A PDF with any other text is accepted, and [handle]
    then never throws that refusal. *)
Theorem handle_blank_pdf env body w statusText raw :
  fetch_outcome env (Body.url body) = FetchResponds true statusText →
  unpdf_outcome env (Body.url body) = UnpdfText raw →
  (allWhiteSpace raw = true
   ∧ handle env body w
     = (Throws (ApiError (mkApiException
                  "Could not extract text from the provided PDF." 500)),
        add_call (CallFetch (Body.url body)) w))
  ∨ (allWhiteSpace raw = false
     ∧ extracts env (Body.url body) (trim raw)
     ∧ ∀ w', handle env body w
             ≠ (Throws (ApiError (mkApiException
                          "Could not extract text from the provided PDF." 500)),
                w')).
Proof.
  intros Hf Hu. destruct (allWhiteSpace raw) eqn:Hws.
  - left. split; [done |]. unfold handle. unfold mbind, M_bind at 1.
    rewrite (extractTextFromPdf_text env _ w statusText raw Hf Hu).
    cbv beta iota. by rewrite blank_guard, Hws.
  - right. split; [done |].
    assert (extracts env (Body.url body) (trim raw)) as Hx.
    { exists statusText, raw. by rewrite blank_guard. }
    split; [exact Hx |]. intros w'.
    destruct (handle_extracts env body w (trim raw) Hx) as (w1 & _ & ->).
    apply commit_not_could_not_extract.
Qed.

Lemma handle_blank_pdf_witness :
  let env :=
    mkEnv (λ _, FetchResponds true "OK") (λ _, UnpdfText (" " +:+ LF +:+ "  "))
      (λ _, AiThrows "unused") 1700 None (Inserted 1 "t") None in
  (allWhiteSpace (" " +:+ LF +:+ "  ") = true
   ∧ handle env sampleBody emptyWorld
     = (Throws (ApiError (mkApiException
                  "Could not extract text from the provided PDF." 500)),
        add_call (CallFetch (Body.url sampleBody)) emptyWorld))
  ∨ (allWhiteSpace (" " +:+ LF +:+ "  ") = false
     ∧ extracts env (Body.url sampleBody) (trim (" " +:+ LF +:+ "  "))
     ∧ ∀ w', handle env sampleBody emptyWorld
             ≠ (Throws (ApiError (mkApiException
                          "Could not extract text from the provided PDF." 500)),
                w')).
Proof.
  intros env.
  apply (handle_blank_pdf env sampleBody emptyWorld "OK" (" " +:+ LF +:+ "  "));
    reflexivity.
Defined.

(** What [handle] throws on a validated body: always an [ApiException] of
    status 500, thrown before the model is asked, or on a rejected put, or
    on a rejected insert. *)
Lemma handle_throws env body w e w' :
  handle env body w = (Throws e, w') →
  scripts w' = scripts w
  ∧ ∃ a, e = ApiError a ∧ status a = 500%N
    ∧ (after_calls w w' [CallFetch (Body.url body)]
       ∨ (a = R2_FAILED ∧ is_Some (put_outcome env) ∧ bucket w' = bucket w)
       ∨ (a = D1_FAILED ∧ put_outcome env = None
          ∧ ∃ err, insert_outcome env = InsertThrows err)).
Proof.
  intros E.
  destruct (handle_run env body w)
    as [(msg & w0 & E0 & F) | (text & w1 & _ & (Hb1 & Hs1 & Hc1) & E1)].
  - rewrite E in E0. injection E0 as -> ->. split; [apply F |].
    eexists. split; [reflexivity |]. split; [reflexivity | by left].
  - rewrite E1 in E.
    destruct (commit_run env (fullScript env)
                (r2_file_link_of (now env) (Body.name body))
                (Body.name body) (Body.personas body) w1) as (r & w0 & E0 & H).
    rewrite E in E0. injection E0 as <- <-.
    destruct (put_outcome env) as [err|]; [| destruct (insert_outcome env) as [err|]].
    + destruct H as ([= ->] & Hb & Hs & _). split; [by rewrite Hs |].
      eexists. split; [reflexivity |]. split; [reflexivity |]. right. left.
      split; [done |]. split; [by eexists | by rewrite Hb].
    + destruct H as ([= ->] & _ & Hs & _). split; [by rewrite Hs |].
      eexists. split; [reflexivity |]. split; [reflexivity |]. right. right.
      by eauto.
    + by destruct H.
Qed.

(** X4.  What [ScriptCreate.handle] throws is the [ZodError] of line 67,
    exactly when the request is rejected by the schema, and then nothing
    was called or logged; or it is an [ApiException], always of status
    500: thrown when nothing but the fetch was called (the PDF could not
    be read or had no text), or the upload failure, thrown when the bucket
    rejected the put, or the metadata failure, thrown when the put was
    accepted and the insert rejected.  No error of the platform escapes as
    it is, and in every case the table is as before. *)
Theorem ScriptCreate_handle_failure_kinds env validation w e w' :
  ScriptCreate_handle env validation w = (Throws e, w') →
  scripts w' = scripts w
  ∧ ((∃ issues, validation = Rejected issues ∧ e = ZodError issues ∧ w' = w)
     ∨ ∃ body a,
         validation = Validated body ∧ e = ApiError a ∧ status a = 500%N
         ∧ (after_calls w w' [CallFetch (Body.url body)]
            ∨ (a = R2_FAILED ∧ is_Some (put_outcome env) ∧ bucket w' = bucket w)
            ∨ (a = D1_FAILED ∧ put_outcome env = None
               ∧ ∃ err, insert_outcome env = InsertThrows err))).
Proof.
  destruct validation as [issues | body]; unfold ScriptCreate_handle; run.
  - intros [= <- <-]. split; [done |]. left. by exists issues.
  - intros E. destruct (handle_throws env body w e w' E) as (Hs & a & -> & H5 & Hk).
    split; [exact Hs |]. right. by exists body, a.
Qed.

Lemma ScriptCreate_handle_failure_kinds_witness :
  let env :=
    mkEnv (λ _, FetchResponds false "Not Found") (λ _, UnpdfText "never read")
      (λ _, AiThrows "unused") 1700 None (Inserted 1 "t") None in
  let validation := Validated sampleBody in
  let e :=
    ApiError (mkApiException
      "Failed to process PDF from url: https://example.org/a.pdf. Failed to fetch PDF: Not Found"
      500) in
  let w' := (ScriptCreate_handle env validation emptyWorld).2 in
  scripts w' = scripts emptyWorld
  ∧ ((∃ issues, validation = Rejected issues ∧ e = ZodError issues
        ∧ w' = emptyWorld)
     ∨ ∃ body a,
         validation = Validated body ∧ e = ApiError a ∧ status a = 500%N
         ∧ (after_calls emptyWorld w' [CallFetch (Body.url body)]
            ∨ (a = R2_FAILED ∧ is_Some (put_outcome env)
               ∧ bucket w' = bucket emptyWorld)
            ∨ (a = D1_FAILED ∧ put_outcome env = None
               ∧ ∃ err, insert_outcome env = InsertThrows err))).
Proof.
  intros env validation e w'.
  apply (ScriptCreate_handle_failure_kinds env validation emptyWorld e w').
  vm_compute. reflexivity.
Defined.

(** ** What one request calls and touches *)

Lemma turnCalls_AI env a ps h turns i :
  Forall (λ c, is_AI_call c = true) (turnCalls env a ps h turns i).
Proof. unfold turnCalls. apply Forall_fmap, Forall_true. by intros j. Qed.

Lemma length_turnCalls env a ps h turns i :
  length (turnCalls env a ps h turns i) = asked env turns i.
Proof. unfold turnCalls. by rewrite length_fmap, length_seq. Qed.

(** X5.  One request calls the platform at most fifteen times, in this
    order: the fetch; then at most eleven model calls (the narrator and at
    most ten persona turns); then at most three calls to the stores.  No
    model call follows a call to a store. *)
Theorem handle_call_budget env body w :
  ∃ ai stores,
    calls (handle env body w).2
    = calls w ++ CallFetch (Body.url body) :: ai ++ stores
    ∧ Forall (λ c, is_AI_call c = true) ai ∧ length ai ≤ 11
    ∧ Forall (λ c, is_store_call c = true) stores ∧ length stores ≤ 3.
Proof.
  destruct (handle_run env body w)
    as [(msg & w0 & -> & (_ & _ & Hc)) | (text & w1 & _ & (_ & _ & Hc1) & ->)].
  - exists [], []. simpl. rewrite Hc. repeat split; first [lia | by constructor].
  - destruct (commit_run env (fullScript env)
                (r2_file_link_of (now env) (Body.name body))
                (Body.name body) (Body.personas body) w1) as (r & w0 & -> & H).
    exists (narratorCall text
              :: turnCalls env text (Body.personas body) (narration env) MAX_TURNS 0).
    assert (∃ stores, calls w0 = calls w1 ++ stores
              ∧ Forall (λ c, is_store_call c = true) stores ∧ length stores ≤ 3)
      as (stores & Hc0 & Hst & Hlen).
    { destruct (put_outcome env); [| destruct (insert_outcome env)];
        destruct H as (_ & _ & _ & ->); (eexists; split; [reflexivity |]);
        (split; [by repeat constructor | simpl; lia]). }
    exists stores. simpl. rewrite Hc0, Hc1, <- app_assoc. simpl.
    split; [reflexivity |]. split; [| split; [| by split]].
    + constructor; [reflexivity | apply turnCalls_AI].
    + simpl. rewrite length_turnCalls.
      pose proof (asked_le env MAX_TURNS 0). unfold MAX_TURNS in *. lia.
Qed.

(** X6.  A request leaves every object stored under another key as it
    was, keeps the rows of the table in place, and adds at most one row;
    when it adds one, that row carries the key of the request. *)
Theorem handle_frame env body w :
  let key := r2_file_link_of (now env) (Body.name body) in
  let w' := (handle env body w).2 in
  (∀ k, k ≠ key → bucket w' !! k = bucket w !! k)
  ∧ ∃ new, scripts w' = scripts w ++ new ∧ length new ≤ 1
      ∧ ∀ row, row ∈ new → Row.r2_file_link row = key.
Proof.
  intros key w'. subst w'.
  destruct (handle_commit env body w)
    as (before & w1 & (Hb & Hs & _) & _ & [[msg E] | E]); rewrite E; simpl.
  - split; [intros k _; by rewrite Hb |].
    exists []. rewrite app_nil_r. split; [done |]. split; [simpl; lia |].
    intros row Hin. by apply elem_of_nil in Hin.
  - fold key.
    destruct (commit_run env (fullScript env) key
                (Body.name body) (Body.personas body) w1) as (r & w0 & -> & H).
    simpl. rewrite <- Hb, <- Hs.
    destruct (put_outcome env); [| destruct (insert_outcome env)].
    + destruct H as (_ & -> & -> & _). split; [done |].
      exists []. rewrite app_nil_r. split; [done |]. split; [simpl; lia |].
      intros row Hin. by apply elem_of_nil in Hin.
    + destruct H as (_ & -> & -> & _). split.
      * intros k Hk. destruct (delete_outcome env).
        -- by rewrite lookup_insert_ne.
        -- by rewrite lookup_delete_ne, lookup_insert_ne.
      * exists []. rewrite app_nil_r. split; [done |]. split; [simpl; lia |].
        intros row Hin. by apply elem_of_nil in Hin.
    + destruct H as (_ & -> & -> & _). split.
      * intros k Hk. by rewrite lookup_insert_ne.
      * eexists. split; [reflexivity |]. split; [simpl; lia |].
        intros row ->%list_elem_of_singleton. reflexivity.
Qed.

(** ** The storage key, further *)

Lemma noWhiteSpace_append a b :
  noWhiteSpace a → noWhiteSpace b → noWhiteSpace (a +:+ b).
Proof.
  unfold noWhiteSpace. intros Ha Hb.
  induction a as [|c a IH]; [exact Hb |].
  rewrite append_cons. simpl in *. apply Forall_cons in Ha as [Hc Ha].
  constructor; [exact Hc | by apply IH].
Qed.

Lemma string_of_uint_noWhiteSpace d :
  noWhiteSpace (NilEmpty.string_of_uint d).
Proof.
  unfold noWhiteSpace.
  induction d; simpl; [constructor | by constructor ..].
Qed.

Lemma Number_toString_noWhiteSpace n : noWhiteSpace (Number_toString n).
Proof.
  unfold Number_toString, NilZero.string_of_uint.
  destruct (N.to_uint n) eqn:E; try apply string_of_uint_noWhiteSpace.
  by repeat constructor.
Qed.

Lemma length_replace_runs s : ∀ in_run,
  String.length (replace_runs in_run s) ≤ String.length s.
Proof.
  induction s as [|c s IH]; intros in_run; simpl; [lia |].
  destruct (isWhiteSpace c); [destruct in_run |]; simpl.
  - specialize (IH true). lia.
  - specialize (IH true). lia.
  - specialize (IH false). lia.
Qed.

(** X7.  The key holds no white space whatever the name is; sanitizing a
    name twice is sanitizing it once; and the sanitized name is never
    longer than the name. *)
Theorem r2_file_link_noWhiteSpace (timestamp : N) (name : string) :
  noWhiteSpace (r2_file_link_of timestamp name)
  ∧ replace_whitespace (replace_whitespace name) = replace_whitespace name
  ∧ String.length (replace_whitespace name) ≤ String.length name.
Proof.
  split; [| split].
  - unfold r2_file_link_of.
    apply noWhiteSpace_append; [by repeat constructor |].
    apply noWhiteSpace_append; [apply Number_toString_noWhiteSpace |].
    apply noWhiteSpace_append; [by repeat constructor |].
    apply noWhiteSpace_append; [apply replace_runs_noWhiteSpace |].
    by repeat constructor.
  - apply replace_runs_id, replace_runs_noWhiteSpace.
  - apply length_replace_runs.
Qed.

Lemma replace_runs_space_prefix ws rest : ∀ in_run,
  ws ≠ EmptyString → allWhiteSpace ws = true →
  replace_runs in_run (ws +:+ rest)
  = (if in_run then EmptyString else "-") +:+ replace_runs true rest.
Proof.
  induction ws as [|c ws IH]; intros in_run Hne Hws; [done |].
  simpl in Hws. apply andb_true_iff in Hws as [Hc Hws].
  rewrite append_cons. simpl. rewrite Hc.
  destruct ws as [|d ws].
  - simpl. by destruct in_run.
  - rewrite (IH true) by done. simpl. by destruct in_run.
Qed.

Lemma replace_runs_same_prefix a s1 s2 :
  (∀ in_run, replace_runs in_run s1 = replace_runs in_run s2) →
  ∀ in_run, replace_runs in_run (a +:+ s1) = replace_runs in_run (a +:+ s2).
Proof.
  intros H. induction a as [|c a IH]; intros in_run; [apply H |].
  rewrite !append_cons. simpl. by rewrite !IH.
Qed.

(** X8.  Names that differ only in the white space between two parts (its
    length or its kind) get the same key at the same time stamp. *)
Theorem r2_file_link_collision (timestamp : N) (a ws1 ws2 b : string) :
  ws1 ≠ EmptyString → allWhiteSpace ws1 = true →
  ws2 ≠ EmptyString → allWhiteSpace ws2 = true →
  r2_file_link_of timestamp (a +:+ ws1 +:+ b)
  = r2_file_link_of timestamp (a +:+ ws2 +:+ b).
Proof.
  intros Hne1 Hws1 Hne2 Hws2. unfold r2_file_link_of, replace_whitespace.
  do 3 f_equal. f_equal. apply replace_runs_same_prefix. intros in_run.
  by rewrite !replace_runs_space_prefix.
Qed.

Lemma r2_file_link_collision_witness :
  r2_file_link_of 1700 ("my" +:+ " " +:+ "file")
  = r2_file_link_of 1700 ("my" +:+ (" " +:+ LF +:+ "  ") +:+ "file").
Proof.
  apply (r2_file_link_collision 1700 "my" " " (" " +:+ LF +:+ "  ") "file");
    first [reflexivity | discriminate].
Defined.

(** ** Personas and prompts *)

(** X9.  With at least one persona, as the schema of the route requires,
    the persona of a turn is always one of the list, the one at position
    [i mod length], and the personas repeat with the length of the list as
    period. *)
Theorem currentPersona_round_robin (personas : list string) (i : nat) :
  personas ≠ [] →
  personas !! (i mod length personas) = Some (currentPersona personas i)
  ∧ currentPersona personas i ∈ personas
  ∧ currentPersona personas (i + length personas) = currentPersona personas i
  ∧ (i < length personas → personas !! i = Some (currentPersona personas i)).
Proof.
  intros Hne.
  assert (length personas ≠ 0) as Hlen by (by destruct personas).
  assert (i mod length personas < length personas) as Hlt
    by (by apply Nat.mod_upper_bound).
  destruct (lookup_lt_is_Some_2 personas _ Hlt) as [p Hp].
  assert (currentPersona personas i = p) as Hcur
    by (unfold currentPersona; by rewrite Hp).
  split; [by rewrite Hcur |]. split; [| split].
  - rewrite Hcur. by eapply list_elem_of_lookup_2.
  - unfold currentPersona.
    replace (i + length personas) with (i + 1 * length personas) by lia.
    by rewrite Nat.Div0.mod_add.
  - intros Hi. rewrite Nat.mod_small in Hp by done. by rewrite Hcur.
Qed.

Lemma currentPersona_round_robin_witness :
  ["Ada"; "Bob"] !! (7 mod length ["Ada"; "Bob"])
    = Some (currentPersona ["Ada"; "Bob"] 7)
  ∧ currentPersona ["Ada"; "Bob"] 7 ∈ ["Ada"; "Bob"]
  ∧ currentPersona ["Ada"; "Bob"] (7 + length ["Ada"; "Bob"])
    = currentPersona ["Ada"; "Bob"] 7
  ∧ (7 < length ["Ada"; "Bob"] →
     ["Ada"; "Bob"] !! 7 = Some (currentPersona ["Ada"; "Bob"] 7)).
Proof. apply (currentPersona_round_robin ["Ada"; "Bob"] 7). discriminate. Defined.

Lemma substring0_idem n : ∀ s, substring0 n (substring0 n s) = substring0 n s.
Proof.
  unfold substring0.
  induction n as [|n IH]; intros [|c s]; simpl; try reflexivity.
  by rewrite IH.
Qed.

Lemma length_substring0 n : ∀ s, String.length (substring0 n s) ≤ n.
Proof.
  unfold substring0.
  induction n as [|n IH]; intros [|c s]; simpl; try lia.
  specialize (IH s). lia.
Qed.

Lemma substring0_prefix n : ∀ s, ∃ rest, s = substring0 n s +:+ rest.
Proof.
  unfold substring0.
  induction n as [|n IH]; intros [|c s]; simpl.
  - by exists EmptyString.
  - by eexists.
  - by exists EmptyString.
  - destruct (IH s) as [rest Hr]. exists rest. rewrite append_cons. by f_equal.
Qed.

(** X10.  The prompts read only the beginning of the article: the first
    5000 characters for a persona, the first 2000 for the narrator.  The
    part of a prompt taken from the article is a prefix of it of at most
    that length, and an article cut at that length gets the same
    prompt. *)
Theorem prompts_read_a_prefix (articleText : string) :
  (∀ history persona currentTurn,
     personaPrompt (substring0 5000 articleText) history persona currentTurn
     = personaPrompt articleText history persona currentTurn)
  ∧ narratorPrompt (substring0 2000 articleText) = narratorPrompt articleText
  ∧ String.length (substring0 5000 articleText) ≤ 5000
  ∧ String.length (substring0 2000 articleText) ≤ 2000
  ∧ (∃ rest, articleText = substring0 5000 articleText +:+ rest)
  ∧ (∃ rest, articleText = substring0 2000 articleText +:+ rest).
Proof.
  split; [| split; [| split; [| split; [| split]]]].
  - intros history persona currentTurn. unfold personaPrompt.
    by rewrite substring0_idem.
  - unfold narratorPrompt. by rewrite substring0_idem.
  - apply length_substring0.
  - apply length_substring0.
  - apply substring0_prefix.
  - apply substring0_prefix.
Qed.

(** ** Listing *)

Lemma ScriptList_handle_run w :
  ScriptList_handle None w = (Returns (Listed.mk true (scripts w)), w).
Proof. reflexivity. Qed.

(** X11.  After [ScriptCreate.handle] returned a record, the listing shows
    it, after all the rows listed before, and the bucket holds the script
    under the key the listed record gives. *)
Theorem list_after_create env body w created w' :
  handle env body w = (Returns created, w') →
  ∃ listed,
    ScriptList_handle None w' = (Returns listed, w')
    ∧ Listed.success listed = true
    ∧ Listed.result listed = scripts w ++ [result created]
    ∧ bucket w' !! Row.r2_file_link (result created) = Some (fullScript env).
Proof.
  intros E. exists (Listed.mk true (scripts w')).
  split; [apply ScriptList_handle_run |]. split; [reflexivity |]. simpl.
  destruct (handle_commit env body w)
    as (before & w1 & (Hb & Hs & _) & _ & [[msg E1] | E1]);
    rewrite E in E1; [done |].
  destruct (commit_run env (fullScript env)
              (r2_file_link_of (now env) (Body.name body))
              (Body.name body) (Body.personas body) w1) as (r & w0 & E0 & H).
  rewrite <- E1 in E0. injection E0 as <- <-.
  destruct (put_outcome env); [by destruct H |].
  destruct (insert_outcome env); [by destruct H |].
  destruct H as ([= ->] & -> & -> & _). simpl.
  split; [by rewrite Hs | apply lookup_insert_eq].
Qed.

Lemma list_after_create_witness :
  let env := sampleEnv None (Inserted 1 "2024-01-01 00:00:00") None in
  let o := handle env sampleBody emptyWorld in
  let created :=
    mkCreated 201 true
      (newRow "generated/1700-my-file.ssml" "my file" ["Ada"; "Bob"]
         1 "2024-01-01 00:00:00") in
  ∃ listed,
    ScriptList_handle None o.2 = (Returns listed, o.2)
    ∧ Listed.success listed = true
    ∧ Listed.result listed = scripts emptyWorld ++ [result created]
    ∧ bucket o.2 !! Row.r2_file_link (result created) = Some (fullScript env).
Proof.
  intros env o created.
  apply (list_after_create env sampleBody emptyWorld created o.2).
  vm_compute. reflexivity.
Defined.

(** X12.  After [ScriptCreate.handle] threw, whatever the reason, the
    listing is what it was before the request. *)
Theorem list_after_failed_create env body w e w' :
  handle env body w = (Throws e, w') →
  ScriptList_handle None w' = (Returns (Listed.mk true (scripts w)), w')
  ∧ (ScriptList_handle None w).1 = (ScriptList_handle None w').1.
Proof.
  intros E.
  destruct (handle_commit env body w)
    as (before & w1 & (Hb & Hs & _) & _ & [[msg E1] | E1]).
  - rewrite E in E1. injection E1 as -> ->.
    rewrite !ScriptList_handle_run. simpl. by rewrite Hs.
  - destruct (commit_run env (fullScript env)
                (r2_file_link_of (now env) (Body.name body))
                (Body.name body) (Body.personas body) w1) as (r & w0 & E0 & H).
    rewrite <- E1, E in E0. injection E0 as <- <-.
    rewrite !ScriptList_handle_run. simpl.
    destruct (put_outcome env); [| destruct (insert_outcome env)].
    + destruct H as (_ & _ & -> & _). by rewrite Hs.
    + destruct H as (_ & _ & -> & _). by rewrite Hs.
    + by destruct H.
Qed.

Lemma list_after_failed_create_witness :
  let env := sampleEnv None (InsertThrows "D1_ERROR") (Some "R2 unavailable") in
  let w' := (handle env sampleBody emptyWorld).2 in
  ScriptList_handle None w' = (Returns (Listed.mk true (scripts emptyWorld)), w')
  ∧ (ScriptList_handle None emptyWorld).1 = (ScriptList_handle None w').1.
Proof.
  intros env w'.
  apply (list_after_failed_create env sampleBody emptyWorld (ApiError D1_FAILED) w').
  vm_compute. reflexivity.
Defined.

(** ** The responses of the app *)

Section Responses.
Context (buildResponse : ApiException → list ErrorItem.t).

(** X13.  A request for a new script, through chanfana's [execute] and
    [app.onError], gets one of three answers.  Status 400 with the issues,
    exactly when the schema rejects the request, and then nothing was
    called.  Status 200 with what [handle] returned, which says
    [success: true].  Or, whenever [handle] threw, an error response of
    status 500 with [success: false] and the errors chanfana builds from
    the exception: a PDF that cannot be read is answered 500 too. *)
Theorem serve_create env validation w :
  let served :=
    serve buildResponse (execute (ScriptCreate_handle env validation)) w in
  match served.1 with
  | inr (Answer.ValidationFailed status issues) =>
      status = 400%N ∧ validation = Rejected issues ∧ served.2 = w
  | inr (Answer.Json status created) =>
      status = 200%N ∧ success created = true
      ∧ ∃ body, validation = Validated body
          ∧ handle env body w = (Returns created, served.2)
  | inl response =>
      ∃ body a, validation = Validated body
        ∧ handle env body w = (Throws (ApiError a), served.2)
        ∧ response = ErrorResponse.mk 500 false (buildResponse a)
  end.
Proof.
  intros served. subst served. unfold serve, execute, ScriptCreate_handle.
  destruct validation as [issues | body]; run; [done |].
  destruct (handle env body w) as [[created | e] w'] eqn:E; simpl.
  - split; [done |]. split; [| by exists body].
    destruct (handle_commit env body w)
      as (before & w1 & _ & _ & [[msg E1] | E1]); rewrite E in E1; [done |].
    destruct (commit_run env (fullScript env)
                (r2_file_link_of (now env) (Body.name body))
                (Body.name body) (Body.personas body) w1) as (r & w0 & E0 & H).
    rewrite <- E1 in E0. injection E0 as <- <-.
    destruct (put_outcome env); [by destruct H |].
    destruct (insert_outcome env); [by destruct H |].
    by destruct H as ([= ->] & _).
  - destruct (handle_throws env body w e w' E) as (_ & a & -> & H5 & _).
    simpl. exists body, a. split; [done |]. split; [done |].
    by rewrite H5.
Qed.

(** X14.  A request for the listing is answered with all the rows and
    [success: true]; when the query is rejected, the answer is the general
    one, status 500 with code 7000 and a fixed message, the error of the
    database is only logged, and the stores are untouched. *)
Theorem serve_list (select_outcome : option string) (w : World) :
  let served := serve buildResponse (ScriptList_handle select_outcome) w in
  bucket served.2 = bucket w ∧ scripts served.2 = scripts w
  ∧ match select_outcome with
    | None => served = (inr (Listed.mk true (scripts w)), w)
    | Some err =>
        served.1 = inl (ErrorResponse.mk 500 false
                          [ErrorItem.mk 7000 "Internal Server Error"])
        ∧ console served.2 = console w ++
            [console_error_entry
               [LStr "Global error handler caught:"; LErr (JsError err)]]
    end.
Proof. intros served. subst served. by destruct select_outcome. Qed.

End Responses.

(** ** The personas column *)

Lemma unquote_step c rest :
  unquote_body (quote_char c +:+ rest) = push c (unquote_body rest).
Proof. destruct c as [[] [] [] [] [] [] [] []]; reflexivity. Qed.

Lemma unquote_quote s rest :
  unquote_body (quote_body s +:+ dquote +:+ rest) = Some (s, rest).
Proof.
  induction s as [|c s IH]; [reflexivity |].
  simpl. by rewrite append_assoc, unquote_step, IH.
Qed.

Lemma arrayTail_cons x l :
  arrayTail (x :: l)
  = dquote +:+ quote_body x +:+ dquote
      +:+ match l with [] => "]" | _ :: _ => "," +:+ arrayTail l end.
Proof.
  unfold arrayTail, quoteJSONString. destruct l as [|y l]; simpl.
  - by rewrite !append_assoc.
  - by rewrite !append_assoc.
Qed.

Lemma arrayTail_inj l1 : ∀ l2, arrayTail l1 = arrayTail l2 → l1 = l2.
Proof.
  induction l1 as [|x l1 IH]; intros [|y l2] H; [done | | |].
  - rewrite arrayTail_cons in H. apply (f_equal firstCode) in H.
    vm_compute in H. discriminate H.
  - rewrite arrayTail_cons in H. apply (f_equal firstCode) in H.
    vm_compute in H. discriminate H.
  - rewrite !arrayTail_cons in H. apply String.app_inj in H.
    apply (f_equal unquote_body) in H. rewrite !unquote_quote in H.
    injection H as -> H. f_equal.
    destruct l1 as [|x1 l1], l2 as [|y2 l2]; [done | | |].
    + apply (f_equal firstCode) in H. vm_compute in H. discriminate H.
    + apply (f_equal firstCode) in H. vm_compute in H. discriminate H.
    + apply String.app_inj in H. by apply IH.
Qed.

(** X15.  [JSON.stringify] loses nothing of the personas: lists that
    differ, in a name, in the order or in the length, give different
    strings, so the [personas] column of a row tells the list of the
    request that created it. *)
Theorem JSON_stringify_inj (personas1 personas2 : list string) :
  JSON_stringify personas1 = JSON_stringify personas2 →
  personas1 = personas2.
Proof.
  unfold JSON_stringify. intros H. apply String.app_inj in H.
  by apply arrayTail_inj.
Qed.

Lemma JSON_stringify_inj_witness :
  ["Ada"; "a\b" +:+ dquote +:+ LF] = ["Ada"; "a\b" +:+ dquote +:+ LF].
Proof.
  apply (JSON_stringify_inj ["Ada"; "a\b" +:+ dquote +:+ LF]
           ["Ada"; "a\b" +:+ dquote +:+ LF]).
  reflexivity.
Defined.
